(** * GeminiMediaServer: the [generateImage] and [generateVideo] tool handlers

    A shallow embedding of [src/server.js].  The two handlers are async
    JavaScript functions that talk to a remote generation API, poll a
    long-running operation, download the result and write it to disk.  They
    are modelled as computations in a small reader/state/exception monad:

    - the reader part ([Env]) holds what the outside world answers: the
      replies of the remote API, of [fetch] and of the file system, the
      latency of every awaited call and the lateness of every timer;
    - the state part ([State]) holds the wall clock read by [Date.now()],
      the files on disk, the number of polls issued so far and the
      time-stamped trace of the effects the handler performed;
    - the exception part carries a thrown JavaScript [Error]. *)

From stdpp Require Import gmap strings list pretty.
From Stdlib Require Import ZArith Lia Ascii String.

Open Scope string_scope.
Open Scope list_scope.
Open Scope Z_scope.

(** ** JavaScript values and operators used by the handlers *)

(** A JavaScript byte buffer ([Buffer]). *)
Definition Buffer := list Byte.byte.

(** Every value thrown on the paths of the handlers is an [Error] object
    (the SDKs, [fetch], [fs] and the engine's own [TypeError]s); the
    handlers read nothing of it but [message]. *)
Record JsError := mkError { message : string }.

Module JS.

(** A string is truthy unless it is empty. *)
Definition truthy_string (s : string) : bool := negb (String.eqb s "").

(** An optional string property is truthy when present and non-empty. *)
Definition truthy (x : option string) : bool :=
  match x with
  | Some s => truthy_string s
  | None => false
  end.

(** [x || d] where [x] is an optional string property and [d] a string. *)
Definition or_default (x : option string) (d : string) : string :=
  match x with
  | Some s => if truthy_string s then s else d
  | None => d
  end.

(** Every object is truthy, the empty array included. *)
Definition truthy_array {A} (l : list A) : bool := true.

(** [a || b || []] where [a] and [b] are optional array properties
    ([undefined] when absent). *)
Definition or_arrays {A} (a b : option (list A)) : list A :=
  match a with
  | Some l => if truthy_array l then l else
                match b with
                | Some l' => if truthy_array l' then l' else []
                | None => []
                end
  | None =>
      match b with
      | Some l' => if truthy_array l' then l' else []
      | None => []
      end
  end.

(** A possibly undefined string inside a template literal. *)
Definition interp (x : option string) : string :=
  match x with
  | Some s => s
  | None => "undefined"
  end.

(** A number inside a template literal (integers only occur here). *)
Definition number (z : Z) : string := pretty z.

(** [String.prototype.toLowerCase], on the ASCII letters.  The other
    characters are left alone; none of them lowers to a letter of
    [.jpg] or [.jpeg], the only strings the result is compared with. *)
Definition lower_char (c : ascii) : ascii :=
  let n := nat_of_ascii c in
  if ((65 <=? n) && (n <=? 90))%nat then ascii_of_nat (n + 32) else c.

Fixpoint toLowerCase (s : string) : string :=
  match s with
  | EmptyString => EmptyString
  | String c s' => String (lower_char c) (toLowerCase s')
  end.

(** [String.prototype.includes] for a one-character needle. *)
Fixpoint includes (s : string) (c : ascii) : bool :=
  match s with
  | EmptyString => false
  | String d s' => Ascii.eqb d c || includes s' c
  end.

(** [Math.round(elapsed / 1000)]: the nearest integer, halves upwards. *)
Definition round_div_1000 (elapsed : Z) : Z := (elapsed + 500) / 1000.

(** [(bytes / 1024 / 1024).toFixed(1)].  Division by a power of two is
    exact on doubles, so the result is the number of tenths of a
    mebibyte nearest to [bytes], halves upwards. *)
Definition toFixed1_MB (bytes : Z) : string :=
  let tenths := (20 * bytes + 1048576) / 2097152 in
  pretty (tenths / 10) +:+ "." +:+ pretty (tenths mod 10).

(** The text of the engine's [TypeError] for a property read on
    [undefined]. *)
Definition cannot_read (prop : string) : JsError :=
  mkError ("Cannot read properties of undefined (reading '" +:+ prop +:+ "')").

(** The double quote and the backslash. *)
Definition dquote : ascii := "034"%char.
Definition backslash : ascii := "092"%char.

Definition hex_digit (n : nat) : ascii :=
  if (n <? 10)%nat then ascii_of_nat (48 + n) else ascii_of_nat (87 + n).

(** [JSON.stringify] of a string: quotes, with the quote, the backslash
    and the control characters escaped. *)
Fixpoint json_escape (s : string) : string :=
  match s with
  | EmptyString => EmptyString
  | String c s' =>
      let n := nat_of_ascii c in
      (if Ascii.eqb c dquote then String backslash (String dquote "")
       else if Ascii.eqb c backslash then String backslash (String backslash "")
       else if (n =? 8)%nat then String backslash "b"
       else if (n =? 9)%nat then String backslash "t"
       else if (n =? 10)%nat then String backslash "n"
       else if (n =? 12)%nat then String backslash "f"
       else if (n =? 13)%nat then String backslash "r"
       else if (n <? 32)%nat then
         String backslash
           ("u00" +:+ String (hex_digit (n / 16)) (String (hex_digit (n mod 16)) ""))
       else String c "") +:+ json_escape s'
  end.

Definition json_string (s : string) : string :=
  String dquote (json_escape s) +:+ String dquote "".

(** [JSON.stringify] of an object whose values are all strings. *)
Fixpoint json_members (kvs : list (string * string)) : string :=
  match kvs with
  | [] => ""
  | [(k, v)] => json_string k +:+ ":" +:+ json_string v
  | (k, v) :: rest => json_string k +:+ ":" +:+ json_string v +:+ "," +:+ json_members rest
  end.

Definition json_object (kvs : list (string * string)) : string :=
  "{" +:+ json_members kvs +:+ "}".

End JS.

(** ** Node's [path] module (POSIX flavour) *)

Module path.

(** The variables of the right-to-left scan of [path.extname]. *)
Record scan := mkScan {
  startDot : Z;
  startPart : Z;
  end_ : Z;
  matchedSlash : bool;
  preDotState : Z
}.

Definition scan0 : scan := mkScan (-1) 0 (-1) true 0.

(** One round of the scan at character [code] of index [i]; [inl] is the
    [break] of the loop. *)
Definition scan_step (i : Z) (code : ascii) (st : scan) : scan + scan :=
  if Ascii.eqb code "/" then
    if negb (matchedSlash st)
    then inl (mkScan (startDot st) (i + 1) (end_ st) (matchedSlash st) (preDotState st))
    else inr st
  else
    let st1 :=
      if end_ st =? -1
      then mkScan (startDot st) (startPart st) (i + 1) false (preDotState st)
      else st in
    inr (if Ascii.eqb code "."
         then if startDot st1 =? -1
              then mkScan i (startPart st1) (end_ st1) (matchedSlash st1) (preDotState st1)
              else if negb (preDotState st1 =? 1)
                   then mkScan (startDot st1) (startPart st1) (end_ st1) (matchedSlash st1) 1
                   else st1
         else if negb (startDot st1 =? -1)
              then mkScan (startDot st1) (startPart st1) (end_ st1) (matchedSlash st1) (-1)
              else st1).

(** The loop [for (i = path.length - 1; i >= 0; --i)]; the list holds the
    characters of indices [i], [i-1], ..., [0]. *)
Fixpoint scan_loop (cs : list ascii) (st : scan) : scan :=
  match cs with
  | [] => st
  | code :: rest =>
      match scan_step (Z.of_nat (List.length rest)) code st with
      | inl st' => st'
      | inr st' => scan_loop rest st'
      end
  end.

Definition extname (p : string) : string :=
  let st := scan_loop (rev (list_ascii_of_string p)) scan0 in
  if (startDot st =? -1) || (end_ st =? -1) || (preDotState st =? 0)
     || ((preDotState st =? 1) && (startDot st =? end_ st - 1)
         && (startDot st =? startPart st + 1))
  then ""
  else String.substring (Z.to_nat (startDot st)) (Z.to_nat (end_ st - startDot st)) p.

(** [path.resolve(filename)] for a relative [filename] without [.] or
    [..] segments, in the working directory [cwd]. *)
Definition resolve (cwd filename : string) : string :=
  if String.eqb cwd "/" then "/" +:+ filename else cwd +:+ "/" +:+ filename.

End path.

Example extname_upper : path.extname "/tmp/seed.JPG" = ".JPG".
Proof. reflexivity. Qed.

Example extname_none : path.extname "/tmp.d/seed" = "".
Proof. reflexivity. Qed.

Example extname_dotfile : path.extname "/tmp/.jpg" = "".
Proof. reflexivity. Qed.

Example extname_trailing_slash : path.extname "shots/a.b.jpeg//" = ".jpeg".
Proof. reflexivity. Qed.

Example toFixed1_MB_example : JS.toFixed1_MB 1572864 = "1.5".
Proof. reflexivity. Qed.

(** ** Data model *)

(** The parts of a [generateContent] reply, as far as the handler reads
    them.  An absent property is [None]. *)
Module InlineData.
Record t := mk { data : option string; mimeType : option string }.
End InlineData.

Module Part.
Record t := mk { inlineData : option InlineData.t; text : option string }.
End Part.

Module Content.
Record t := mk { parts : option (list Part.t) }.
End Content.

Module Candidate.
Record t := mk { content : option Content.t }.
End Candidate.

(** [result.response] of the SDK; only [candidates] is read. *)
Module GenerateContentResult.
Record t := mk { candidates : option (list Candidate.t) }.
End GenerateContentResult.

(** The snapshots of a long-running video operation. *)
Module Video.
Record t := mk { uri : option string }.
End Video.

Module Sample.
Record t := mk { video : option Video.t }.
End Sample.

(** [operation.response]; [json] is what [JSON.stringify] prints for the
    raw object, which has more properties than the two the handler reads. *)
Module VideosResponse.
Record t := mk {
  generatedSamples : option (list Sample.t);
  generatedVideos : option (list Sample.t);
  json : string
}.
End VideosResponse.

(** [done] is the truthiness of the property (absent counts as false). *)
Module Operation.
Record t := mk {
  name : option string;
  done : bool;
  response : option VideosResponse.t
}.
End Operation.

(** The argument of [genAINew.models.generateVideos]. *)
Module Image.
Record t := mk { imageBytes : string; mimeType : string }.
End Image.

Module Config.
Record t := mk { aspectRatio : string }.
End Config.

Module VideoRequest.
Record t := mk {
  model : string;
  prompt : string;
  image : option Image.t;
  config : Config.t
}.
End VideoRequest.

(** The [Response] of [fetch]; [arrayBuffer] is the awaited body, or the
    error it rejects with, and [body_latency] the time the await takes. *)
Module FetchResponse.
Record t := mk {
  ok : bool;
  status : Z;
  statusText : string;
  body_latency : N;
  arrayBuffer : JsError + Buffer
}.
End FetchResponse.

(** The parameters of the two tools, after schema validation. *)
Module ImageParams.
Record t := mk {
  prompt : string;
  aspectRatio : option string;
  outputFormat : option string
}.
End ImageParams.

Module VideoParams.
Record t := mk {
  prompt : string;
  aspectRatio : option string;
  model : option string;
  imagePath : option string
}.
End VideoParams.

(** What a handler returns: [{ content: [ ... ] }]. *)
Inductive ContentItem :=
| TextItem (text : string)
| ImageItem (data : string) (mimeType : string).

Record ToolResponse := mkResponse { content : list ContentItem }.

Definition text_response (s : string) : ToolResponse := mkResponse [TextItem s].

(** ** The outside world *)

(** An entry of the file system: a regular file, or something that exists
    but that [readFileSync] refuses (a directory, a file without read
    permission). *)
Inductive FsNode :=
| File (bytes : Buffer)
| Unreadable (e : JsError).

(** The effects a handler performs, in the order of the source. *)
Inductive Event :=
| ConsoleError (line : string)
| ConsoleErrorObj (label : string) (e : JsError)
| GenerateContent (model : string) (responseModalities : list string) (prompt : string)
| GenerateVideos (req : VideoRequest.t)
| SetTimeout (ms : N)
| GetVideosOperation (operation : Operation.t)
| Fetch (url : string)
| WriteFileSync (filename : string) (data : Buffer) (thrown : option JsError).

(** The answers of the world.  Every awaited call takes a latency (in
    milliseconds) and then resolves or rejects; the k-th timer fires
    [timer_lateness k] milliseconds after the delay asked for, never before. *)
Record Env := mkEnv {
  GEMINI_API_KEY : option string;
  cwd : string;
  toString_base64 : Buffer -> string;
  from_base64 : string -> Buffer;
  generateContent_reply : string -> N * (JsError + GenerateContentResult.t);
  generateVideos_reply : VideoRequest.t -> N * (JsError + Operation.t);
  getVideosOperation_reply : nat -> Operation.t -> N * (JsError + Operation.t);
  timer_lateness : nat -> N;
  fetch_reply : string -> N * (JsError + FetchResponse.t);
  writeFileSync_error : string -> Buffer -> option JsError
}.

(** [clock] is [Date.now()]; [trace] holds the events performed so far,
    the latest first, each with the time it was performed at. *)
Record State := mkState {
  clock : Z;
  fs : gmap string FsNode;
  polls : nat;
  trace : list (Z * Event)
}.

(** ** The monad of handlers *)

Inductive Result (A : Type) : Type :=
| Val (a : A)
| Exn (e : JsError)
| OutOfFuel.

Arguments Val {A} a.
Arguments Exn {A} e.
Arguments OutOfFuel {A}.

Definition M (A : Type) : Type := Env -> State -> Result A * State.

Definition ret {A} (a : A) : M A := fun _ s => (Val a, s).

Definition throw {A} (e : JsError) : M A := fun _ s => (Exn e, s).

Definition out_of_fuel {A} : M A := fun _ s => (OutOfFuel, s).

Definition bind {A B} (m : M A) (k : A -> M B) : M B :=
  fun env s =>
    match m env s with
    | (Val a, s') => k a env s'
    | (Exn e, s') => (Exn e, s')
    | (OutOfFuel, s') => (OutOfFuel, s')
    end.

(** [try { body } catch (error) { handler }]. *)
Definition try_catch {A} (body : M A) (handler : JsError -> M A) : M A :=
  fun env s =>
    match body env s with
    | (Exn e, s') => handler e env s'
    | r => r
    end.

Notation "x <- c1 ;; c2" := (bind c1 (fun x => c2))
  (at level 20, c1 at level 99, c2 at level 200, only parsing).
Notation "c1 ;; c2" := (bind c1 (fun _ => c2))
  (at level 100, c2 at level 200, right associativity, only parsing).

Definition ask : M Env := fun env s => (Val env, s).

Definition emit (e : Event) : M unit :=
  fun _ s => (Val tt, mkState (clock s) (fs s) (polls s) ((clock s, e) :: trace s)).

(** Time passing while the handler is suspended. *)
Definition elapse (ms : N) : M unit :=
  fun _ s => (Val tt, mkState (clock s + Z.of_N ms) (fs s) (polls s) (trace s)).

(** The settlement of an awaited promise. *)
Definition settle {A} (r : JsError + A) : M A :=
  match r with
  | inl e => throw e
  | inr a => ret a
  end.

Definition Date_now : M Z := fun _ s => (Val (clock s), s).

Definition console_error (line : string) : M unit := emit (ConsoleError line).

Definition console_error_obj (label : string) (e : JsError) : M unit :=
  emit (ConsoleErrorObj label e).

(** [fs.existsSync]: never throws. *)
Definition existsSync (p : string) : M bool :=
  fun _ s => (Val (match fs s !! p with Some _ => true | None => false end), s).

Definition readFileSync (p : string) : M Buffer :=
  fun _ s =>
    match fs s !! p with
    | Some (File b) => (Val b, s)
    | Some (Unreadable e) => (Exn e, s)
    | None => (Exn (mkError ("ENOENT: no such file or directory, open '" +:+ p +:+ "'")), s)
    end.

(** [fs.writeFileSync]: the call is recorded with its outcome; a write that
    throws leaves the files as they were. *)
Definition writeFileSync (filename : string) (data : Buffer) : M unit :=
  fun env s =>
    match writeFileSync_error env filename data with
    | Some e =>
        (Exn e, mkState (clock s) (fs s) (polls s)
                  ((clock s, WriteFileSync filename data (Some e)) :: trace s))
    | None =>
        (Val tt, mkState (clock s) (<[filename := File data]> (fs s)) (polls s)
                   ((clock s, WriteFileSync filename data None) :: trace s))
    end.

(** [Buffer.from(x, 'base64')]: a [TypeError] unless [x] is a string. *)
Definition Buffer_from_base64 (x : option string) : M (string * Buffer) :=
  match x with
  | Some d => env <- ask ;; ret (d, from_base64 env d)
  | None =>
      throw (mkError ("The first argument must be of type string or an instance of "
                      +:+ "Buffer, ArrayBuffer, or Array or an Array-like Object. "
                      +:+ "Received undefined"))
  end.

(** [await model.generateContent(prompt)]. *)
Definition generateContent (model : string) (modalities : list string) (prompt : string)
  : M GenerateContentResult.t :=
  env <- ask ;;
  emit (GenerateContent model modalities prompt) ;;
  let '(latency, reply) := generateContent_reply env prompt in
  elapse latency ;;
  settle reply.

(** [await genAINew.models.generateVideos(req)]. *)
Definition generateVideos (req : VideoRequest.t) : M Operation.t :=
  env <- ask ;;
  emit (GenerateVideos req) ;;
  let '(latency, reply) := generateVideos_reply env req in
  elapse latency ;;
  settle reply.

(** [await new Promise(resolve => setTimeout(resolve, ms))]. *)
Definition sleep (ms : N) : M unit :=
  fun env s =>
    (Val tt, mkState (clock s + Z.of_N ms + Z.of_N (timer_lateness env (polls s)))
               (fs s) (polls s) ((clock s, SetTimeout ms) :: trace s)).

(** [await genAINew.operations.getVideosOperation({ operation })]. *)
Definition getVideosOperation (operation : Operation.t) : M Operation.t :=
  fun env s =>
    let '(latency, reply) := getVideosOperation_reply env (polls s) operation in
    settle reply env
      (mkState (clock s + Z.of_N latency) (fs s) (S (polls s))
         ((clock s, GetVideosOperation operation) :: trace s)).

(** [await fetch(url)]. *)
Definition fetch (url : string) : M FetchResponse.t :=
  env <- ask ;;
  emit (Fetch url) ;;
  let '(latency, reply) := fetch_reply env url in
  elapse latency ;;
  settle reply.

(** [await resp.arrayBuffer()]. *)
Definition arrayBuffer (resp : FetchResponse.t) : M Buffer :=
  elapse (FetchResponse.body_latency resp) ;;
  settle (FetchResponse.arrayBuffer resp).

(** ** The image generation tool *)

Definition image_model : string := "gemini-2.0-flash-exp-image-generation".

(** [result.response.candidates[0].content.parts], then the start of
    [for (const part of parts)], with the [TypeError]s of the reads on
    [undefined]. *)
Definition response_parts (result : GenerateContentResult.t) : M (list Part.t) :=
  match GenerateContentResult.candidates result with
  | None => throw (JS.cannot_read "0")
  | Some [] => throw (JS.cannot_read "content")
  | Some (candidate :: _) =>
      match Candidate.content candidate with
      | None => throw (JS.cannot_read "parts")
      | Some c =>
          match Content.parts c with
          | None => throw (mkError "parts is not iterable")
          | Some parts => ret parts
          end
      end
  end.

(** The loop over the parts, from the values [imageResult] and [textResult]
    hold on entry. *)
Fixpoint scan_parts (parts : list Part.t)
    (imageResult : option InlineData.t) (textResult : option string)
  : option InlineData.t * option string :=
  match parts with
  | [] => (imageResult, textResult)
  | part :: rest =>
      match Part.inlineData part with
      | Some d => scan_parts rest (Some d) textResult
      | None =>
          if JS.truthy (Part.text part)
          then scan_parts rest imageResult (Part.text part)
          else scan_parts rest imageResult textResult
      end
  end.

Definition image_filename (t : Z) (outputFormat : string) : string :=
  "gemini-image-" +:+ JS.number t +:+ "." +:+ outputFormat.

(** The [try] block of the handler; [None] is the [undefined] the function
    returns when it falls off its end. *)
Definition generateImage_body (prompt outputFormat : string) : M (option ToolResponse) :=
  result <- generateContent image_model ["Text"; "Image"] prompt ;;
  parts <- response_parts result ;;
  let '(imageResult, textResult) := scan_parts parts None None in
  match imageResult with
  | Some imageResult =>
      let imageData := InlineData.data imageResult in
      t <- Date_now ;;
      let filename := image_filename t outputFormat in
      decoded <- Buffer_from_base64 imageData ;;
      let '(imageData, buffer) := decoded in
      writeFileSync filename buffer ;;
      console_error ("Image saved as " +:+ filename) ;;
      ret (Some (mkResponse [ImageItem imageData ("image/" +:+ outputFormat)]))
  | None =>
      if JS.truthy textResult then
        console_error ("No image generated, text response: " +:+ JS.interp textResult) ;;
        ret (Some (text_response (JS.interp textResult)))
      else ret None
  end.

Definition image_error_response (error : JsError) : ToolResponse :=
  text_response ("Error generating image: " +:+ message error).

(** The handler of [generateImage]. *)
Definition generateImage (params : ImageParams.t) : M (option ToolResponse) :=
  let prompt := JS.or_default (Some (ImageParams.prompt params)) "Default image prompt" in
  let aspectRatio := JS.or_default (ImageParams.aspectRatio params) "1:1" in
  let outputFormat := JS.or_default (ImageParams.outputFormat params) "png" in
  try_catch
    (generateImage_body prompt outputFormat)
    (fun error =>
       console_error_obj "Image generation error:" error ;;
       ret (Some (image_error_response error))).

(** ** The video generation tool *)

Definition maxWait : Z := 5 * 60 * 1000.
Definition pollInterval : N := 10 * 1000.

Definition timed_out_response (operation : Operation.t) : ToolResponse :=
  text_response ("Video generation timed out after 5 minutes. Operation: "
                 +:+ JS.interp (Operation.name operation)).

(** The loop [while (!operation.done) { ... }].  [inl] is the [return] from
    inside the loop, [inr] the operation the loop ends with.  The recursion
    is on [fuel], the number of rounds allowed; see [poll_fuel_enough]. *)
Fixpoint poll (fuel : nat) (startTime : Z) (operation : Operation.t)
  : M (ToolResponse + Operation.t) :=
  if Operation.done operation then ret (inr operation)
  else
    match fuel with
    | O => out_of_fuel
    | S fuel' =>
        t <- Date_now ;;
        let elapsed := t - startTime in
        if maxWait <? elapsed then ret (inl (timed_out_response operation))
        else
          console_error ("[Veo] Waiting... (" +:+ JS.number (JS.round_div_1000 elapsed)
                         +:+ "s elapsed)") ;;
          sleep pollInterval ;;
          operation' <- getVideosOperation operation ;;
          poll fuel' startTime operation'
    end.

(** The MIME type of the seed image, from its path. *)
Definition seed_mimeType (imagePath : string) : string :=
  let ext := JS.toLowerCase (path.extname imagePath) in
  if String.eqb ext ".jpg" || String.eqb ext ".jpeg" then "image/jpeg" else "image/png".

(** [operation.response?.generatedSamples || operation.response?.generatedVideos || []]. *)
Definition select_samples (operation : Operation.t) : list Sample.t :=
  JS.or_arrays
    (r ← Operation.response operation; VideosResponse.generatedSamples r)
    (r ← Operation.response operation; VideosResponse.generatedVideos r).

Definition video_filename (t : Z) : string :=
  "gemini-video-" +:+ JS.number t +:+ ".mp4".

Definition download_failed_response (resp : FetchResponse.t) : ToolResponse :=
  text_response ("Failed to download video: " +:+ JS.number (FetchResponse.status resp)
                 +:+ " " +:+ FetchResponse.statusText resp).

Definition success_response (file size_mb modelId aspectRatio : string) : ToolResponse :=
  text_response (JS.json_object [("status", "success"); ("file", file);
                                 ("size_mb", size_mb); ("model", modelId);
                                 ("aspectRatio", aspectRatio)]).

Definition empty_result_response (operation : Operation.t) : ToolResponse :=
  text_response ("Video generation completed but no video was returned. Response: "
                 +:+ JS.interp (VideosResponse.json <$> Operation.response operation)).

(** The part of the handler after the polling loop, entered with the
    operation the loop ended with. *)
Definition finish_video (modelId aspectRatio : string) (operation : Operation.t)
  : M (option ToolResponse) :=
  console_error "[Veo] Generation complete!" ;;
  let samples := select_samples operation in
  let fallthrough := ret (Some (empty_result_response operation)) in
  match samples with
  | sample :: _ =>
      let videoUri := v ← Sample.video sample; Video.uri v in
      if JS.truthy videoUri then
        env <- ask ;;
        let separator := if JS.includes (JS.interp videoUri) "?" then "&" else "?" in
        let downloadUrl := JS.interp videoUri +:+ separator +:+ "key="
                           +:+ JS.interp (GEMINI_API_KEY env) in
        console_error "[Veo] Downloading video..." ;;
        resp <- fetch downloadUrl ;;
        if negb (FetchResponse.ok resp) then ret (Some (download_failed_response resp))
        else
          videoBuffer <- arrayBuffer resp ;;
          t <- Date_now ;;
          let filename := video_filename t in
          writeFileSync filename videoBuffer ;;
          let size_mb := JS.toFixed1_MB (Z.of_nat (List.length videoBuffer)) in
          console_error ("[Veo] Video saved as " +:+ filename +:+ " (" +:+ size_mb +:+ " MB)") ;;
          ret (Some (success_response (path.resolve (cwd env) filename) size_mb
                       modelId aspectRatio))
      else fallthrough
  | [] => fallthrough
  end.

(** The submission: image-to-video when [imagePath] is given and names an
    existing file, text-to-video otherwise. *)
Definition submit (params : VideoParams.t) (modelId prompt : string) (config : Config.t)
  : M Operation.t :=
  seeded <- (if JS.truthy (VideoParams.imagePath params)
             then existsSync (JS.interp (VideoParams.imagePath params))
             else ret false) ;;
  if seeded : bool then
    let imagePath := JS.interp (VideoParams.imagePath params) in
    env <- ask ;;
    imageBuffer <- readFileSync imagePath ;;
    let imageBase64 := toString_base64 env imageBuffer in
    let mimeType := seed_mimeType imagePath in
    console_error ("[Veo] Using image as first frame: " +:+ imagePath) ;;
    generateVideos (VideoRequest.mk modelId prompt (Some (Image.mk imageBase64 mimeType)) config)
  else
    generateVideos (VideoRequest.mk modelId prompt None config).

(** The [try] block of the handler. *)
Definition generateVideo_body (fuel : nat) (params : VideoParams.t)
    (prompt aspectRatio modelId : string) : M (option ToolResponse) :=
  console_error ("[Veo] Starting video generation: model=" +:+ modelId
                 +:+ ", aspect=" +:+ aspectRatio) ;;
  console_error ("[Veo] Prompt: " +:+ prompt) ;;
  let config := Config.mk aspectRatio in
  operation <- submit params modelId prompt config ;;
  console_error "[Veo] Operation started, polling for completion..." ;;
  startTime <- Date_now ;;
  polled <- poll fuel startTime operation ;;
  match polled with
  | inl response => ret (Some response)
  | inr operation => finish_video modelId aspectRatio operation
  end.

Definition video_error_response (error : JsError) : ToolResponse :=
  text_response ("Error generating video: " +:+ message error).

(** The handler of [generateVideo]. *)
Definition generateVideo (fuel : nat) (params : VideoParams.t) : M (option ToolResponse) :=
  let prompt := VideoParams.prompt params in
  let aspectRatio := JS.or_default (VideoParams.aspectRatio params) "9:16" in
  let modelId := JS.or_default (VideoParams.model params) "veo-3.0-generate-001" in
  try_catch
    (generateVideo_body fuel params prompt aspectRatio modelId)
    (fun error =>
       console_error_obj "[Veo] Error:" error ;;
       ret (Some (video_error_response error))).

(** Thirty-two rounds of the loop always suffice: each round that does not
    return sleeps for at least [pollInterval], and thirty-one such rounds
    exceed [maxWait]. *)
Definition poll_fuel : nat := 32.

(** ** Sample worlds *)

Module Demo.

Definition state0 : State := mkState 1700000000000 ∅ 0 [].

Definition pending (n : string) : Operation.t := Operation.mk (Some n) false None.

Definition finished (n : string) (r : VideosResponse.t) : Operation.t :=
  Operation.mk (Some n) true (Some r).

Definition clip (u : string) : Sample.t := Sample.mk (Some (Video.mk (Some u))).

Definition body : Buffer := [Byte.x00; Byte.x01; Byte.x02].

(** A world where the operation is done on poll [n] (counted from 0) with
    the response [r], every call is immediate but for [late] milliseconds
    of lateness of every timer, and the download succeeds. *)
Definition env_done_on (n : nat) (late : N) (r : VideosResponse.t) : Env :=
  mkEnv (Some "KEY") "/srv"
    (fun _ => "QUJD") (fun _ => body)
    (fun _ => (0%N, inl (mkError "quota exceeded")))
    (fun _ => (0%N, inr (pending "operations/1")))
    (fun k _ => (0%N, inr (if (n <=? k)%nat then finished "operations/1" r
                           else pending "operations/1")))
    (fun _ => late)
    (fun _ => (0%N, inr (FetchResponse.mk true 200 "OK" 0 (inr body))))
    (fun _ _ => None).

(** A world where the operation is never done. *)
Definition env_never (late : N) : Env :=
  mkEnv (Some "KEY") "/srv"
    (fun _ => "QUJD") (fun _ => body)
    (fun _ => (0%N, inl (mkError "quota exceeded")))
    (fun _ => (0%N, inr (pending "operations/1")))
    (fun _ _ => (0%N, inr (pending "operations/1")))
    (fun _ => late)
    (fun _ => (0%N, inr (FetchResponse.mk false 404 "Not Found" 0 (inr []))))
    (fun _ _ => None).

Definition params0 : VideoParams.t := VideoParams.mk "a cat" None None None.

End Demo.

(** * Properties *)

(** ** The polling loop *)

(** The state after the sleep of a round entered in state [s]. *)
Definition after_sleep (env : Env) (elapsed : Z) (s : State) : State :=
  mkState (clock s + Z.of_N pollInterval + Z.of_N (timer_lateness env (polls s)))
    (fs s) (polls s)
    ((clock s, SetTimeout pollInterval)
     :: (clock s, ConsoleError ("[Veo] Waiting... (" +:+ JS.number (JS.round_div_1000 elapsed)
                                +:+ "s elapsed)"))
     :: trace s).

(** The state after the poll that follows, which took [latency]. *)
Definition after_poll (latency : N) (operation : Operation.t) (s1 : State) : State :=
  mkState (clock s1 + Z.of_N latency) (fs s1) (S (polls s1))
    ((clock s1, GetVideosOperation operation) :: trace s1).

(** One round of the loop, spelled out. *)
Lemma poll_round fuel startTime operation env s :
  poll (S fuel) startTime operation env s =
    if Operation.done operation then (Val (inr operation), s)
    else if maxWait <? clock s - startTime
         then (Val (inl (timed_out_response operation)), s)
         else
           let s1 := after_sleep env (clock s - startTime) s in
           let s2 := after_poll (fst (getVideosOperation_reply env (polls s) operation))
                       operation s1 in
           match snd (getVideosOperation_reply env (polls s) operation) with
           | inl e => (Exn e, s2)
           | inr operation' => poll fuel startTime operation' env s2
           end.
Proof.
  cbn [poll]. destruct (Operation.done operation); [reflexivity|].
  unfold bind at 1. cbn [Date_now].
  destruct (maxWait <? clock s - startTime); [reflexivity|].
  unfold bind, console_error, emit, sleep, getVideosOperation, after_sleep, after_poll.
  cbn [clock fs polls trace].
  destruct (getVideosOperation_reply env (polls s) operation) as [latency [e|operation']];
    reflexivity.
Qed.

Lemma poll_done fuel startTime operation env s :
  Operation.done operation = true ->
  poll fuel startTime operation env s = (Val (inr operation), s).
Proof. intros Hd. destruct fuel; cbn [poll]; rewrite Hd; reflexivity. Qed.

(** What the loop may add to the trace: log lines, sleeps of [pollInterval]
    begun within the budget, and polls. *)
Definition loop_event (startTime : Z) (te : Z * Event) : Prop :=
  match snd te with
  | ConsoleError _ => True
  | SetTimeout ms => ms = pollInterval /\ fst te - startTime <= maxWait
  | GetVideosOperation _ => True
  | _ => False
  end.

Definition is_write (e : Event) : bool :=
  match e with
  | WriteFileSync _ _ _ => true
  | _ => false
  end.

Definition is_poll (e : Event) : bool :=
  match e with
  | GetVideosOperation _ => true
  | _ => false
  end.

(** The number of calls of [fs.writeFileSync] in a trace. *)
Definition write_calls (evs : list (Z * Event)) : nat :=
  List.length (List.filter (fun te => is_write (snd te)) evs).

(** The number of calls of [getVideosOperation] in a trace. *)
Definition poll_calls (evs : list (Z * Event)) : nat :=
  List.length (List.filter (fun te => is_poll (snd te)) evs).

Lemma loop_event_no_write startTime evs :
  Forall (loop_event startTime) evs -> write_calls evs = 0%nat.
Proof.
  unfold write_calls. induction 1 as [|[t e] evs He _ IH]; [reflexivity|].
  cbn [List.filter snd]. destruct e; cbn in He |- *; try contradiction; exact IH.
Qed.

(** The loop touches no file, and adds only loop events to the trace. *)
Lemma poll_effects fuel : forall startTime operation env s r s',
  poll fuel startTime operation env s = (r, s') ->
  fs s' = fs s /\
  exists evs, trace s' = evs ++ trace s /\ Forall (loop_event startTime) evs /\
              (polls s' = polls s + poll_calls evs)%nat.
Proof.
  induction fuel as [|fuel IH]; intros startTime operation env s r s' Hrun.
  - cbn [poll] in Hrun. destruct (Operation.done operation); inversion Hrun; subst;
      (split; [reflexivity|]); exists []; repeat split; try constructor; cbn; lia.
  - rewrite poll_round in Hrun.
    destruct (Operation.done operation).
    { inversion Hrun; subst. split; [reflexivity|]. exists [].
      repeat split; try constructor; cbn; lia. }
    destruct (maxWait <? clock s - startTime) eqn:Hbudget.
    { inversion Hrun; subst. split; [reflexivity|]. exists [].
      repeat split; try constructor; cbn; lia. }
    apply Z.ltb_ge in Hbudget. cbn zeta in Hrun.
    set (s1 := after_sleep env (clock s - startTime) s) in *.
    set (s2 := after_poll _ operation s1) in *.
    assert (Hnew : trace s2 =
                   [(clock s1, GetVideosOperation operation);
                    (clock s, SetTimeout pollInterval);
                    (clock s, ConsoleError ("[Veo] Waiting... ("
                       +:+ JS.number (JS.round_div_1000 (clock s - startTime))
                       +:+ "s elapsed)"))] ++ trace s) by reflexivity.
    assert (Hev : Forall (loop_event startTime)
                    [(clock s1, GetVideosOperation operation);
                     (clock s, SetTimeout pollInterval);
                     (clock s, ConsoleError ("[Veo] Waiting... ("
                        +:+ JS.number (JS.round_div_1000 (clock s - startTime))
                        +:+ "s elapsed)"))]).
    { repeat constructor; cbn; lia. }
    destruct (snd (getVideosOperation_reply env (polls s) operation)) as [e|operation'].
    + inversion Hrun; subst. split; [reflexivity|].
      eexists. split; [exact Hnew|]. split; [exact Hev|]. cbn. lia.
    + apply IH in Hrun. destruct Hrun as [Hfs [evs [Htr [Hall Hpolls]]]].
      split; [rewrite Hfs; reflexivity|].
      exists (evs ++ [(clock s1, GetVideosOperation operation);
                      (clock s, SetTimeout pollInterval);
                      (clock s, ConsoleError ("[Veo] Waiting... ("
                         +:+ JS.number (JS.round_div_1000 (clock s - startTime))
                         +:+ "s elapsed)"))]).
      split; [rewrite Htr, Hnew, <- app_assoc; reflexivity|].
      split; [apply Forall_app; split; assumption|].
      rewrite Hpolls. unfold poll_calls. rewrite List.filter_app, List.length_app.
      cbn. lia.
Qed.

(** The loop never runs out of fuel when it is given one round more than
    the budget left has room for. *)
Lemma poll_fuel_enough fuel : forall startTime operation env s,
  (1 <= fuel)%nat ->
  maxWait - (clock s - startTime) < (Z.of_nat fuel - 1) * Z.of_N pollInterval ->
  fst (poll fuel startTime operation env s) <> OutOfFuel.
Proof.
  induction fuel as [|fuel IH]; intros startTime operation env s Hpos Hroom; [lia|].
  rewrite poll_round.
  destruct (Operation.done operation); [discriminate|].
  destruct (maxWait <? clock s - startTime) eqn:Hbudget; [discriminate|].
  apply Z.ltb_ge in Hbudget. cbn zeta.
  destruct (snd (getVideosOperation_reply env (polls s) operation)); [discriminate|].
  apply IH.
  - unfold pollInterval in Hroom. lia.
  - unfold after_poll, after_sleep. cbn [clock]. unfold pollInterval in *. lia.
Qed.

(** More fuel changes nothing once there is enough. *)
Lemma poll_fuel_more fuel : forall startTime operation env s,
  fst (poll fuel startTime operation env s) <> OutOfFuel ->
  poll (S fuel) startTime operation env s = poll fuel startTime operation env s.
Proof.
  induction fuel as [|fuel IH]; intros startTime operation env s Hok.
  - cbn [poll] in Hok |- *. destruct (Operation.done operation); [reflexivity|].
    exfalso. apply Hok. reflexivity.
  - rewrite (poll_round (S fuel)). rewrite poll_round in Hok. rewrite poll_round.
    destruct (Operation.done operation); [reflexivity|].
    destruct (maxWait <? clock s - startTime); [reflexivity|].
    cbn zeta in *.
    destruct (snd (getVideosOperation_reply env (polls s) operation)); [reflexivity|].
    apply IH. exact Hok.
Qed.

(** ** The scan of the parts of an image reply *)

Definition no_binary (part : Part.t) : Prop := Part.inlineData part = None.

Lemma scan_parts_app pre : forall post imageResult textResult,
  scan_parts (pre ++ post) imageResult textResult =
    scan_parts post (fst (scan_parts pre imageResult textResult))
      (snd (scan_parts pre imageResult textResult)).
Proof.
  induction pre as [|part pre IH]; intros post imageResult textResult; [reflexivity|].
  cbn [app scan_parts].
  destruct (Part.inlineData part); [apply IH|].
  destruct (JS.truthy (Part.text part)); apply IH.
Qed.

Lemma scan_parts_no_binary post : forall imageResult textResult,
  Forall no_binary post ->
  fst (scan_parts post imageResult textResult) = imageResult.
Proof.
  induction post as [|part post IH]; intros imageResult textResult Hall; [reflexivity|].
  inversion Hall as [|? ? Hpart Hpost]; subst. cbn [scan_parts].
  unfold no_binary in Hpart. rewrite Hpart.
  destruct (JS.truthy (Part.text part)); apply IH; assumption.
Qed.

(** A sequence with a binary part splits at its last binary part. *)
Lemma last_binary_split parts :
  Exists (fun part => is_Some (Part.inlineData part)) parts ->
  exists pre part post d,
    parts = pre ++ part :: post /\ Part.inlineData part = Some d /\ Forall no_binary post.
Proof.
  induction parts as [|p parts IH]; intros Hex; [inversion Hex|].
  destruct (decide (Exists (fun part => is_Some (Part.inlineData part)) parts))
    as [Hlater|Hnone].
  - destruct (IH Hlater) as [pre [part [post [d [-> [Hd Hpost]]]]]].
    exists (p :: pre), part, post, d. auto.
  - inversion Hex as [? ? [d Hd]|? ? Hlater]; subst; [|contradiction].
    exists [], p, parts, d. repeat split; [assumption|].
    apply Forall_forall. intros x Hx.
    unfold no_binary. destruct (Part.inlineData x) eqn:Hx'; [|reflexivity].
    exfalso. apply Hnone. apply Exists_exists. exists x. split; [assumption|].
    rewrite Hx'. eexists; reflexivity.
Qed.

(** ** The choice of the sample collection *)

Lemma select_samples_eq operation :
  select_samples operation =
    match Operation.response operation with
    | None => []
    | Some r =>
        match VideosResponse.generatedSamples r with
        | Some samples => samples
        | None =>
            match VideosResponse.generatedVideos r with
            | Some samples => samples
            | None => []
            end
        end
    end.
Proof.
  unfold select_samples, JS.or_arrays, JS.truthy_array.
  destruct (Operation.response operation) as [r|]; cbn; [|reflexivity].
  destruct (VideosResponse.generatedSamples r), (VideosResponse.generatedVideos r);
    reflexivity.
Qed.

(** With no sample the handler reports an empty result and downloads
    nothing. *)
Lemma finish_video_no_sample modelId aspectRatio operation env s :
  select_samples operation = [] ->
  finish_video modelId aspectRatio operation env s =
    (Val (Some (empty_result_response operation)),
     mkState (clock s) (fs s) (polls s)
       ((clock s, ConsoleError "[Veo] Generation complete!") :: trace s)).
Proof.
  intros Hsel. unfold finish_video, bind, console_error, emit. rewrite Hsel. reflexivity.
Qed.

(** ** The seed image *)

(** Equality of strings up to the case of the ASCII letters. *)
Definition eq_nocase (a b : string) : Prop := JS.toLowerCase a = JS.toLowerCase b.

Definition jpeg_extension (p : string) : Prop :=
  eq_nocase (path.extname p) ".jpg" \/ eq_nocase (path.extname p) ".jpeg".

#[global] Instance jpeg_extension_dec p : Decision (jpeg_extension p).
Proof. unfold jpeg_extension, eq_nocase. apply _. Defined.





(** The submission when no seed image is given, or none that exists. *)
Lemma submit_unseeded params modelId prompt config env s :
  match VideoParams.imagePath params with
  | Some p => fs s !! p = None
  | None => True
  end ->
  submit params modelId prompt config env s =
    generateVideos (VideoRequest.mk modelId prompt None config) env s.
Proof.
  intros Hmissing. unfold submit.
  destruct (VideoParams.imagePath params) as [p|]; cbn [JS.truthy JS.interp].
  - destruct (JS.truthy_string p).
    + unfold bind at 1. unfold existsSync. rewrite Hmissing. reflexivity.
    + reflexivity.
  - reflexivity.
Qed.

(** ** File writes along a run *)

(** The number of calls of [fs.writeFileSync] that returned. *)
Definition completed_writes (evs : list (Z * Event)) : nat :=
  List.length (List.filter (fun te => match snd te with
                                      | WriteFileSync _ _ None => true
                                      | _ => false
                                      end) evs).

Lemma write_calls_app evs1 evs2 :
  write_calls (evs1 ++ evs2) = (write_calls evs1 + write_calls evs2)%nat.
Proof. unfold write_calls. rewrite List.filter_app, List.length_app. reflexivity. Qed.



(** From [s] to [s'] no file was written and [fs.writeFileSync] was not
    called. *)
Definition quiet_run (s s' : State) : Prop :=
  fs s' = fs s /\ exists evs, trace s' = evs ++ trace s /\ write_calls evs = 0%nat.

(** From [s] to [s'] [fs.writeFileSync] was called once, returned, and
    wrote [data] to [filename]. *)
Definition wrote (s s' : State) (filename : string) (data : Buffer) : Prop :=
  fs s' = <[filename := File data]> (fs s) /\
  exists evs1 evs2 t,
    trace s' = evs2 ++ (t, WriteFileSync filename data None) :: evs1 ++ trace s /\
    write_calls evs1 = 0%nat /\ write_calls evs2 = 0%nat.

(** From [s] to [s'] [fs.writeFileSync] was called once and threw [e]. *)
Definition write_failed (s s' : State) (e : JsError) : Prop :=
  fs s' = fs s /\
  exists evs1 evs2 t filename data,
    trace s' = evs2 ++ (t, WriteFileSync filename data (Some e)) :: evs1 ++ trace s /\
    write_calls evs1 = 0%nat /\ write_calls evs2 = 0%nat.

Lemma quiet_refl s : quiet_run s s.
Proof. split; [reflexivity|]. exists []. split; reflexivity. Qed.

Lemma quiet_trans s1 s2 s3 : quiet_run s1 s2 -> quiet_run s2 s3 -> quiet_run s1 s3.
Proof.
  intros [Hfs1 [evs1 [Htr1 Hw1]]] [Hfs2 [evs2 [Htr2 Hw2]]].
  split; [congruence|]. exists (evs2 ++ evs1).
  split; [rewrite Htr2, Htr1, app_assoc; reflexivity|].
  rewrite write_calls_app. lia.
Qed.

(** A step that changes the clock or the poll counter and adds events that
    are not writes. *)
Lemma quiet_step s c n evs :
  write_calls evs = 0%nat ->
  quiet_run s (mkState c (fs s) n (evs ++ trace s)).
Proof. intros Hw. split; [reflexivity|]. exists evs. split; [reflexivity|exact Hw]. Qed.

Lemma wrote_after s1 s2 s3 filename data :
  quiet_run s1 s2 -> wrote s2 s3 filename data -> wrote s1 s3 filename data.
Proof.
  intros [Hfs1 [evs [Htr1 Hw]]] [Hfs2 [evs1 [evs2 [t [Htr2 [Hw1 Hw2]]]]]].
  split; [congruence|]. exists (evs1 ++ evs), evs2, t.
  split; [rewrite Htr2, Htr1, <- app_assoc; reflexivity|].
  rewrite write_calls_app. lia.
Qed.

Lemma wrote_then s1 s2 s3 filename data :
  wrote s1 s2 filename data -> quiet_run s2 s3 -> wrote s1 s3 filename data.
Proof.
  intros [Hfs1 [evs1 [evs2 [t [Htr1 [Hw1 Hw2]]]]]] [Hfs2 [evs [Htr2 Hw]]].
  split; [congruence|]. exists evs1, (evs ++ evs2), t.
  split; [rewrite Htr2, Htr1, <- app_assoc; reflexivity|].
  rewrite write_calls_app. lia.
Qed.

Lemma write_failed_after s1 s2 s3 e :
  quiet_run s1 s2 -> write_failed s2 s3 e -> write_failed s1 s3 e.
Proof.
  intros [Hfs1 [evs [Htr1 Hw]]] [Hfs2 [evs1 [evs2 [t [fn [data [Htr2 [Hw1 Hw2]]]]]]]].
  split; [congruence|]. exists (evs1 ++ evs), evs2, t, fn, data.
  split; [rewrite Htr2, Htr1, <- app_assoc; reflexivity|].
  rewrite write_calls_app. lia.
Qed.

Lemma write_failed_then s1 s2 s3 e :
  write_failed s1 s2 e -> quiet_run s2 s3 -> write_failed s1 s3 e.
Proof.
  intros [Hfs1 [evs1 [evs2 [t [fn [data [Htr1 [Hw1 Hw2]]]]]]]] [Hfs2 [evs [Htr2 Hw]]].
  split; [congruence|]. exists evs1, (evs ++ evs2), t, fn, data.
  split; [rewrite Htr2, Htr1, <- app_assoc; reflexivity|].
  rewrite write_calls_app. lia.
Qed.




(** ** How a run of the video handler can end *)

(** The endings of a run from [s] to [s'], with what each did to the files.
    [thrown] is what becomes of an exception: [Exn] inside the [try] block,
    the error response once the [catch] clause has run.  [starved] tells
    when the run may stop for want of fuel. *)
Inductive video_ending (env : Env) (thrown : JsError -> Result (option ToolResponse))
    (starved : Prop) (s s' : State) : Result (option ToolResponse) -> Prop :=
| ending_success filename data size_mb modelId aspectRatio :
    wrote s s' filename data ->
    video_ending env thrown starved s s'
      (Val (Some (success_response (path.resolve (cwd env) filename) size_mb
                    modelId aspectRatio)))
| ending_timed_out operation :
    quiet_run s s' ->
    video_ending env thrown starved s s' (Val (Some (timed_out_response operation)))
| ending_empty operation :
    quiet_run s s' ->
    video_ending env thrown starved s s' (Val (Some (empty_result_response operation)))
| ending_download_failed resp :
    quiet_run s s' ->
    video_ending env thrown starved s s' (Val (Some (download_failed_response resp)))
| ending_thrown e :
    quiet_run s s' ->
    video_ending env thrown starved s s' (thrown e)
| ending_write_thrown e :
    write_failed s s' e ->
    video_ending env thrown starved s s' (thrown e)
| ending_out_of_fuel :
    starved ->
    quiet_run s s' ->
    video_ending env thrown starved s s' OutOfFuel.

Lemma video_ending_after env thrown starved s0 s s' r :
  quiet_run s0 s ->
  video_ending env thrown starved s s' r -> video_ending env thrown starved s0 s' r.
Proof.
  intros Hq Hend. destruct Hend.
  - eapply ending_success. eapply wrote_after; eassumption.
  - apply ending_timed_out. eapply quiet_trans; eassumption.
  - apply ending_empty. eapply quiet_trans; eassumption.
  - apply ending_download_failed. eapply quiet_trans; eassumption.
  - apply ending_thrown. eapply quiet_trans; eassumption.
  - apply ending_write_thrown. eapply write_failed_after; eassumption.
  - apply ending_out_of_fuel; [assumption|]. eapply quiet_trans; eassumption.
Qed.

Ltac run_handler :=
  repeat progress
    (cbv beta iota zeta delta
       [bind ret throw out_of_fuel try_catch ask emit elapse settle Date_now
        console_error console_error_obj existsSync readFileSync writeFileSync
        Buffer_from_base64 generateContent generateVideos fetch arrayBuffer];
     cbn [clock fs polls trace fst snd negb]).

Ltac quiet_leaf s :=
  first [ apply (quiet_step s _ _ []); reflexivity
        | apply (quiet_step s _ _ [_]); reflexivity
        | apply (quiet_step s _ _ [_; _]); reflexivity
        | apply (quiet_step s _ _ [_; _; _]); reflexivity
        | apply (quiet_step s _ _ [_; _; _; _]); reflexivity ].

Lemma generateVideos_quiet req env s :
  quiet_run s (snd (generateVideos req env s)).
Proof.
  unfold generateVideos. run_handler.
  destruct (generateVideos_reply env req) as [latency [e|operation]]; run_handler;
    quiet_leaf s.
Qed.

Lemma submit_quiet params modelId prompt config env s :
  quiet_run s (snd (submit params modelId prompt config env s)).
Proof.
  unfold submit.
  destruct (JS.truthy (VideoParams.imagePath params)).
  - unfold bind at 1. unfold existsSync.
    destruct (fs s !! JS.interp (VideoParams.imagePath params)) as [[bytes|e]|] eqn:Hnode.
    + unfold bind at 1. cbn [ask]. unfold bind at 1. unfold readFileSync. rewrite Hnode.
      unfold bind at 1. unfold console_error, emit.
      eapply quiet_trans; [|apply generateVideos_quiet]. quiet_leaf s.
    + unfold bind at 1. cbn [ask]. unfold bind at 1. unfold readFileSync. rewrite Hnode.
      apply quiet_refl.
    + apply generateVideos_quiet.
  - unfold bind at 1. cbn [ret]. apply generateVideos_quiet.
Qed.

Lemma generateVideos_returns req env s :
  fst (generateVideos req env s) <> OutOfFuel.
Proof.
  unfold generateVideos. run_handler.
  destruct (generateVideos_reply env req) as [latency [e|operation]]; run_handler;
    discriminate.
Qed.

Lemma submit_returns params modelId prompt config env s :
  fst (submit params modelId prompt config env s) <> OutOfFuel.
Proof.
  unfold submit.
  destruct (JS.truthy (VideoParams.imagePath params)).
  - unfold bind at 1. unfold existsSync.
    destruct (fs s !! JS.interp (VideoParams.imagePath params)) as [[bytes|e]|] eqn:Hnode.
    + unfold bind at 1. cbn [ask]. unfold bind at 1. unfold readFileSync. rewrite Hnode.
      unfold bind at 1. unfold console_error, emit. apply generateVideos_returns.
    + unfold bind at 1. cbn [ask]. unfold bind at 1. unfold readFileSync. rewrite Hnode.
      discriminate.
    + apply generateVideos_returns.
  - unfold bind at 1. cbn [ret]. apply generateVideos_returns.
Qed.

Lemma poll_quiet fuel startTime operation env s :
  quiet_run s (snd (poll fuel startTime operation env s)).
Proof.
  destruct (poll fuel startTime operation env s) as [r s'] eqn:Hrun.
  apply poll_effects in Hrun. destruct Hrun as [Hfs [evs [Htr [Hall _]]]].
  split; [exact Hfs|]. exists evs. split; [exact Htr|].
  eapply loop_event_no_write; eassumption.
Qed.

(** The part after the loop ends in one of four ways; it writes a file
    only when it succeeds. *)
Lemma finish_video_ending modelId aspectRatio operation env s :
  video_ending env Exn False s (snd (finish_video modelId aspectRatio operation env s))
    (fst (finish_video modelId aspectRatio operation env s)).
Proof.
  unfold finish_video. run_handler.
  destruct (select_samples operation) as [|sample rest].
  { apply ending_empty. quiet_leaf s. }
  destruct (JS.truthy (v ← Sample.video sample; Video.uri v)).
  2: { apply ending_empty. quiet_leaf s. }
  destruct (fetch_reply env _) as [latency [e|resp]]; run_handler.
  { apply ending_thrown. quiet_leaf s. }
  destruct (FetchResponse.ok resp); run_handler.
  2: { apply ending_download_failed. quiet_leaf s. }
  destruct (FetchResponse.arrayBuffer resp) as [e|videoBuffer]; run_handler.
  { apply ending_thrown. quiet_leaf s. }
  match goal with
  | |- context [writeFileSync_error env ?f ?b] =>
      destruct (writeFileSync_error env f b) as [e|]
  end; run_handler.
  - apply ending_write_thrown. split; [reflexivity|].
    eexists [_; _; _], [], _, _, _. repeat split.
  - eapply ending_success. split; [reflexivity|].
    eexists [_; _; _], [_], _. repeat split.
Qed.

(** The loop returns from inside only with the time-out response, for the
    operation it holds at that moment. *)
Lemma poll_returns_timed_out fuel : forall startTime operation env s response s',
  poll fuel startTime operation env s = (Val (inl response), s') ->
  exists operation', response = timed_out_response operation'.
Proof.
  induction fuel as [|fuel IH]; intros startTime operation env s response s' Hrun.
  - cbn [poll] in Hrun. destruct (Operation.done operation); discriminate.
  - rewrite poll_round in Hrun.
    destruct (Operation.done operation); [discriminate|].
    destruct (maxWait <? clock s - startTime).
    { inversion Hrun; subst. eexists; reflexivity. }
    cbn zeta in Hrun.
    destruct (snd (getVideosOperation_reply env (polls s) operation)); [discriminate|].
    eapply IH; eassumption.
Qed.

(** A finished part widens to any condition of starvation. *)
Lemma video_ending_weaken env thrown (starved : Prop) s s' r :
  video_ending env thrown False s s' r -> video_ending env thrown starved s s' r.
Proof.
  intros Hend. destruct Hend.
  - eapply ending_success; eassumption.
  - apply ending_timed_out; assumption.
  - apply ending_empty; assumption.
  - apply ending_download_failed; assumption.
  - apply ending_thrown; assumption.
  - apply ending_write_thrown; assumption.
  - contradiction.
Qed.

Lemma generateVideo_body_ending fuel params prompt aspectRatio modelId env s r s' :
  generateVideo_body fuel params prompt aspectRatio modelId env s = (r, s') ->
  video_ending env Exn (fuel < poll_fuel)%nat s s' r.
Proof.
  unfold generateVideo_body. intros Hrun.
  unfold bind at 1 in Hrun. unfold console_error at 1 in Hrun. unfold emit at 1 in Hrun.
  unfold bind at 1 in Hrun. unfold console_error at 1 in Hrun. unfold emit at 1 in Hrun.
  cbn [clock fs polls trace] in Hrun.
  set (s2 := mkState (clock s) (fs s) (polls s) _) in Hrun.
  assert (Hq2 : quiet_run s s2) by (subst s2; quiet_leaf s).
  apply (video_ending_after _ _ _ s s2); [exact Hq2|]. clearbody s2. clear Hq2.
  unfold bind at 1 in Hrun.
  pose proof (submit_quiet params modelId prompt (Config.mk aspectRatio) env s2) as Hq1.
  pose proof (submit_returns params modelId prompt (Config.mk aspectRatio) env s2) as Hr1.
  destruct (submit params modelId prompt (Config.mk aspectRatio) env s2) as [r1 s1].
  cbn [fst snd] in Hq1, Hr1.
  destruct r1 as [operation|e|].
  2: { inversion Hrun; subst. apply ending_thrown. exact Hq1. }
  2: { contradiction. }
  apply (video_ending_after _ _ _ s2 s1); [exact Hq1|]. clear Hq1 Hr1.
  unfold bind at 1 in Hrun. unfold console_error at 1 in Hrun. unfold emit at 1 in Hrun.
  unfold bind at 1 in Hrun. cbn [Date_now clock fs polls trace] in Hrun.
  set (s3 := mkState (clock s1) (fs s1) (polls s1) _) in Hrun.
  assert (Hq3 : quiet_run s1 s3) by (subst s3; quiet_leaf s1).
  assert (Hclock : clock s3 = clock s1) by reflexivity.
  apply (video_ending_after _ _ _ s1 s3); [exact Hq3|]. clearbody s3. clear Hq3.
  unfold bind at 1 in Hrun.
  pose proof (poll_quiet fuel (clock s1) operation env s3) as Hq4.
  pose proof (poll_fuel_enough fuel (clock s1) operation env s3) as Hr4.
  destruct (poll fuel (clock s1) operation env s3) as [r4 s4] eqn:Hpoll.
  cbn [fst snd] in Hq4, Hr4.
  destruct r4 as [[response|operation']|e|]; cbn [ret] in Hrun.
  - inversion Hrun; subst.
    apply poll_returns_timed_out in Hpoll. destruct Hpoll as [operation' ->].
    apply ending_timed_out. exact Hq4.
  - apply (video_ending_after _ _ _ s3 s4); [exact Hq4|].
    pose proof (finish_video_ending modelId aspectRatio operation' env s4) as Hfin.
    rewrite Hrun in Hfin. apply video_ending_weaken. exact Hfin.
  - inversion Hrun; subst. apply ending_thrown. exact Hq4.
  - inversion Hrun; subst. apply ending_out_of_fuel; [|exact Hq4].
    destruct (le_lt_dec poll_fuel fuel) as [Hfuel|Hfuel]; [|exact Hfuel].
    exfalso. apply Hr4; [|  |reflexivity].
    + unfold poll_fuel in Hfuel. lia.
    + rewrite Hclock. unfold poll_fuel in Hfuel. unfold maxWait, pollInterval. lia.
Qed.

(** What the [catch] clause makes of an exception. *)
Definition video_caught (e : JsError) : Result (option ToolResponse) :=
  Val (Some (video_error_response e)).

Lemma generateVideo_caught fuel params env s :
  generateVideo fuel params env s =
    let prompt := VideoParams.prompt params in
    let aspectRatio := JS.or_default (VideoParams.aspectRatio params) "9:16" in
    let modelId := JS.or_default (VideoParams.model params) "veo-3.0-generate-001" in
    match generateVideo_body fuel params prompt aspectRatio modelId env s with
    | (Exn e, s') =>
        (video_caught e,
         mkState (clock s') (fs s') (polls s')
           ((clock s', ConsoleErrorObj "[Veo] Error:" e) :: trace s'))
    | r => r
    end.
Proof.
  unfold generateVideo, try_catch. cbn zeta.
  destruct (generateVideo_body _ _ _ _ _ env s) as [[r|e|] s']; reflexivity.
Qed.

Lemma generateVideo_ending fuel params env s :
  video_ending env video_caught (fuel < poll_fuel)%nat s
    (snd (generateVideo fuel params env s)) (fst (generateVideo fuel params env s)).
Proof.
  rewrite generateVideo_caught. cbn zeta.
  destruct (generateVideo_body _ _ _ _ _ env s) as [r s'] eqn:Hbody.
  apply generateVideo_body_ending in Hbody.
  inversion Hbody as [fn data sz m a Hw Hr|op Hq Hr|op Hq Hr|resp Hq Hr|e Hq Hr|e Hw Hr
                     |Hstarved Hq Hr];
    subst r; cbn [fst snd].
  - eapply ending_success; eassumption.
  - apply ending_timed_out; assumption.
  - apply ending_empty; assumption.
  - apply ending_download_failed; assumption.
  - apply (ending_thrown env video_caught _ s _ e).
    eapply quiet_trans; [exact Hq|]. quiet_leaf s'.
  - apply (ending_write_thrown env video_caught _ s _ e).
    eapply write_failed_then; [exact Hw|]. quiet_leaf s'.
  - apply ending_out_of_fuel; assumption.
Qed.

(** ** How a run of the image handler can end *)

Inductive image_ending (outputFormat : string)
    (thrown : JsError -> Result (option ToolResponse))
    (s s' : State) : Result (option ToolResponse) -> Prop :=
| image_saved t imageData buffer :
    wrote s s' (image_filename t outputFormat) buffer ->
    image_ending outputFormat thrown s s'
      (Val (Some (mkResponse [ImageItem imageData ("image/" +:+ outputFormat)])))
| image_text text :
    quiet_run s s' ->
    image_ending outputFormat thrown s s' (Val (Some (text_response text)))
| image_nothing :
    quiet_run s s' ->
    image_ending outputFormat thrown s s' (Val None)
| image_thrown e :
    quiet_run s s' ->
    image_ending outputFormat thrown s s' (thrown e)
| image_write_thrown e :
    write_failed s s' e ->
    image_ending outputFormat thrown s s' (thrown e).

Lemma generateImage_body_ending prompt outputFormat env s :
  image_ending outputFormat Exn s
    (snd (generateImage_body prompt outputFormat env s))
    (fst (generateImage_body prompt outputFormat env s)).
Proof.
  unfold generateImage_body. run_handler.
  destruct (generateContent_reply env prompt) as [latency [e|result]]; run_handler.
  { apply image_thrown. quiet_leaf s. }
  unfold response_parts.
  destruct (GenerateContentResult.candidates result) as [[|candidate ?]|]; run_handler;
    try (apply image_thrown; quiet_leaf s).
  destruct (Candidate.content candidate) as [c|]; run_handler;
    try (apply image_thrown; quiet_leaf s).
  destruct (Content.parts c) as [parts|]; run_handler;
    try (apply image_thrown; quiet_leaf s).
  destruct (scan_parts parts None None) as [[imageResult|] textResult]; run_handler.
  - destruct (InlineData.data imageResult) as [imageData|]; run_handler.
    2: { apply image_thrown. quiet_leaf s. }
    match goal with
    | |- context [writeFileSync_error env ?f ?b] =>
        destruct (writeFileSync_error env f b) as [e|]
    end; run_handler.
    + apply image_write_thrown. split; [reflexivity|].
      eexists [_], [], _, _, _. repeat split.
    + eapply image_saved. split; [reflexivity|].
      eexists [_], [_], _. repeat split.
  - destruct (JS.truthy textResult); run_handler.
    + apply image_text. quiet_leaf s.
    + apply image_nothing. quiet_leaf s.
Qed.

Definition image_caught (e : JsError) : Result (option ToolResponse) :=
  Val (Some (image_error_response e)).

Lemma generateImage_caught params env s :
  generateImage params env s =
    let prompt := JS.or_default (Some (ImageParams.prompt params)) "Default image prompt" in
    let outputFormat := JS.or_default (ImageParams.outputFormat params) "png" in
    match generateImage_body prompt outputFormat env s with
    | (Exn e, s') =>
        (image_caught e,
         mkState (clock s') (fs s') (polls s')
           ((clock s', ConsoleErrorObj "Image generation error:" e) :: trace s'))
    | r => r
    end.
Proof.
  unfold generateImage, try_catch. cbn zeta.
  destruct (generateImage_body _ _ env s) as [[r|e|] s']; reflexivity.
Qed.

Lemma generateImage_ending params env s :
  image_ending (JS.or_default (ImageParams.outputFormat params) "png") image_caught s
    (snd (generateImage params env s)) (fst (generateImage params env s)).
Proof.
  rewrite generateImage_caught. cbn zeta.
  pose proof (generateImage_body_ending
                (JS.or_default (Some (ImageParams.prompt params)) "Default image prompt")
                (JS.or_default (ImageParams.outputFormat params) "png") env s) as Hbody.
  destruct (generateImage_body _ _ env s) as [r s']. cbn [fst snd] in Hbody.
  inversion Hbody as [t d b Hw Hr|text Hq Hr|Hq Hr|e Hq Hr|e Hw Hr]; subst r; cbn [fst snd].
  - eapply image_saved; eassumption.
  - apply image_text; assumption.
  - apply image_nothing; assumption.
  - apply (image_thrown _ image_caught s _ e).
    eapply quiet_trans; [exact Hq|]. quiet_leaf s'.
  - apply (image_write_thrown _ image_caught s _ e).
    eapply write_failed_then; [exact Hw|]. quiet_leaf s'.
Qed.

(** * The claims *)

(** ** Result extraction *)

Module Samples.

Definition textPart (s : string) : Part.t := Part.mk None (Some s).

Definition imagePart (d : string) : Part.t :=
  Part.mk (Some (InlineData.mk (Some d) (Some "image/webp"))) None.

(** [[text("a"), image(X), text("b"), image(Y)]]. *)
Definition interleaved : list Part.t :=
  [textPart "a"; imagePart "WA=="; textPart "b"; imagePart "WQ=="].

End Samples.

Example scan_interleaved :
  fst (scan_parts Samples.interleaved None None)
  = Some (InlineData.mk (Some "WQ==") (Some "image/webp")).
Proof. reflexivity. Qed.

(** Claim C2.  For every sequence of response parts with at least one part
    carrying inline binary data, the scan of the parts in [generateImage]
    ends with [imageResult] holding the inline data of the last such part:
    the sequence splits into a prefix, that part, and a suffix without
    binary parts, and the result is that part's data whatever text parts
    are interleaved and whatever the variables held before. *)
Theorem scan_parts_last_binary parts :
  Exists (fun part => is_Some (Part.inlineData part)) parts ->
  exists pre part post d,
    parts = pre ++ part :: post /\
    Part.inlineData part = Some d /\
    Forall no_binary post /\
    forall imageResult textResult,
      fst (scan_parts parts imageResult textResult) = Some d.
Proof.
  intros Hex. destruct (last_binary_split parts Hex) as [pre [part [post [d [-> [Hd Hpost]]]]]].
  exists pre, part, post, d. repeat split; try assumption.
  intros imageResult textResult. rewrite scan_parts_app. cbn [scan_parts]. rewrite Hd.
  apply scan_parts_no_binary. exact Hpost.
Qed.

Lemma scan_parts_last_binary_witness :
  Exists (fun part => is_Some (Part.inlineData part)) Samples.interleaved /\
  exists pre part post d,
    Samples.interleaved = pre ++ part :: post /\
    Part.inlineData part = Some d /\
    Forall no_binary post /\
    forall imageResult textResult,
      fst (scan_parts Samples.interleaved imageResult textResult) = Some d.
Proof.
  assert (Hex : Exists (fun part => is_Some (Part.inlineData part)) Samples.interleaved).
  { apply Exists_cons_tl, Exists_cons_hd. eexists. reflexivity. }
  split; [exact Hex|]. apply (scan_parts_last_binary Samples.interleaved Hex).
Defined.

(** ** Sample selection *)

Module Responses.

(** [generatedSamples] present but empty, [generatedVideos] non-empty. *)
Definition empty_then_videos : VideosResponse.t :=
  VideosResponse.mk (Some []) (Some [Demo.clip "https://x/y"])
    "{'generatedSamples':[],'generatedVideos':[{'video':{'uri':'https://x/y'}}]}".

(** Only [generatedVideos] present. *)
Definition videos_only : VideosResponse.t :=
  VideosResponse.mk None (Some [Demo.clip "https://x/y?a=1"])
    "{'generatedVideos':[{'video':{'uri':'https://x/y?a=1'}}]}".

End Responses.

(** The claim C1 as the specification words it: with [generatedSamples]
    present but empty and [generatedVideos] non-empty, the sample used is
    the first element of [generatedVideos]. *)
Definition first_nonempty_wins : Prop :=
  forall operation r sample rest,
    Operation.done operation = true ->
    Operation.response operation = Some r ->
    VideosResponse.generatedSamples r = Some [] ->
    VideosResponse.generatedVideos r = Some (sample :: rest) ->
    head (select_samples operation) = Some sample.

(** Claim C1, refuted as stated: an empty [generatedSamples] array is truthy,
    so it is selected and no sample is used. *)
Lemma first_nonempty_wins_fails : ~ first_nonempty_wins.
Proof.
  intros H.
  specialize (H (Demo.finished "operations/1" Responses.empty_then_videos)
                Responses.empty_then_videos (Demo.clip "https://x/y") []
                eq_refl eq_refl eq_refl eq_refl).
  discriminate H.
Qed.

(** The same on a whole call: the operation is done on the second poll
    with that response, and the handler reports that no video was
    returned, without any download or file. *)
Example empty_samples_call :
  let run := generateVideo poll_fuel Demo.params0
               (Demo.env_done_on 1 0 Responses.empty_then_videos) Demo.state0 in
  fst run = Val (Some (empty_result_response
                         (Demo.finished "operations/1" Responses.empty_then_videos)))
  /\ fs (snd run) = ∅.
Proof. vm_compute. split; reflexivity. Qed.

(** Claim C1, amended.  Of the two fields the first one that is PRESENT
    wins: when [generatedSamples] is present it is the collection used,
    empty or not; [generatedVideos] is used only when [generatedSamples] is
    absent.  With [generatedSamples] present and empty the handler uses no
    sample and answers that no video was returned, whatever
    [generatedVideos] holds. *)
Theorem select_samples_first_present operation r :
  Operation.response operation = Some r ->
  (forall samples, VideosResponse.generatedSamples r = Some samples ->
                   select_samples operation = samples) /\
  (VideosResponse.generatedSamples r = None ->
   forall samples, VideosResponse.generatedVideos r = Some samples ->
                   select_samples operation = samples) /\
  (VideosResponse.generatedSamples r = Some [] ->
   forall modelId aspectRatio env s,
     finish_video modelId aspectRatio operation env s =
       (Val (Some (empty_result_response operation)),
        mkState (clock s) (fs s) (polls s)
          ((clock s, ConsoleError "[Veo] Generation complete!") :: trace s))).
Proof.
  intros Hr. repeat split.
  - intros samples Hs. rewrite select_samples_eq, Hr, Hs. reflexivity.
  - intros Hnone samples Hs. rewrite select_samples_eq, Hr, Hnone, Hs. reflexivity.
  - intros Hs modelId aspectRatio env s. apply finish_video_no_sample.
    rewrite select_samples_eq, Hr, Hs. reflexivity.
Qed.

Lemma select_samples_first_present_witness :
  select_samples (Demo.finished "operations/1" Responses.empty_then_videos) = []
  /\ select_samples (Demo.finished "operations/1" Responses.videos_only)
     = [Demo.clip "https://x/y?a=1"].
Proof.
  split.
  - destruct (select_samples_first_present
                (Demo.finished "operations/1" Responses.empty_then_videos)
                Responses.empty_then_videos eq_refl) as [Hpresent _].
    apply Hpresent. reflexivity.
  - destruct (select_samples_first_present
                (Demo.finished "operations/1" Responses.videos_only)
                Responses.videos_only eq_refl) as [_ [Habsent _]].
    apply Habsent; reflexivity.
Defined.

(** ** The seed image *)

Module Seeds.


Definition params_with (p : string) : VideoParams.t :=
  VideoParams.mk "a cat" None None (Some p).

End Seeds.

Example seed_example_upper : seed_mimeType "/tmp/seed.JPG" = "image/jpeg".
Proof. reflexivity. Qed.

Example seed_example_jpeg : seed_mimeType "/tmp/seed.jpeg" = "image/jpeg".
Proof. reflexivity. Qed.

Example seed_example_webp : seed_mimeType "/tmp/seed.webp" = "image/png".
Proof. reflexivity. Qed.

Example seed_example_bare : seed_mimeType "/tmp/seed" = "image/png".
Proof. reflexivity. Qed.



(** Claim C7.  A [generateVideo] call whose [imagePath] names a file that
    does not exist runs exactly as the same call without [imagePath]: same
    result, same final state, same trace of effects.  Both submit the
    text-to-video request (no [image]), and the missing file raises no
    error. *)
Theorem generateVideo_missing_seed fuel prompt aspectRatio model p env s :
  fs s !! p = None ->
  generateVideo fuel (VideoParams.mk prompt aspectRatio model (Some p)) env s
  = generateVideo fuel (VideoParams.mk prompt aspectRatio model None) env s
  /\ forall modelId config s0,
       fs s0 = fs s ->
       submit (VideoParams.mk prompt aspectRatio model (Some p)) modelId prompt config env s0
       = generateVideos (VideoRequest.mk modelId prompt None config) env s0.
Proof.
  intros Hmissing.
  assert (Hsubmit : forall modelId config s0 imagePath,
             fs s0 = fs s -> imagePath = Some p \/ imagePath = None ->
             submit (VideoParams.mk prompt aspectRatio model imagePath)
               modelId prompt config env s0
             = generateVideos (VideoRequest.mk modelId prompt None config) env s0).
  { intros modelId config s0 imagePath Hfs [-> | ->]; apply submit_unseeded; cbn.
    - rewrite Hfs. exact Hmissing.
    - exact I. }
  split.
  - unfold generateVideo, generateVideo_body, try_catch.
    cbn [VideoParams.prompt VideoParams.aspectRatio VideoParams.model].
    unfold bind, console_error, emit. cbn [clock fs polls trace].
    rewrite (Hsubmit _ _ _ (Some p)) by (cbn; auto).
    rewrite (Hsubmit _ _ _ None) by (cbn; auto).
    reflexivity.
  - intros modelId config s0 Hfs. apply (Hsubmit _ _ _ (Some p)); auto.
Qed.

Lemma generateVideo_missing_seed_witness :
  generateVideo poll_fuel (VideoParams.mk "a cat" None None (Some "/no/such/file.png"))
    (Demo.env_done_on 1 0 Responses.videos_only) Demo.state0
  = generateVideo poll_fuel (VideoParams.mk "a cat" None None None)
      (Demo.env_done_on 1 0 Responses.videos_only) Demo.state0.
Proof.
  apply (generateVideo_missing_seed poll_fuel "a cat" None None "/no/such/file.png"
           (Demo.env_done_on 1 0 Responses.videos_only) Demo.state0).
  reflexivity.
Defined.

(** ** The parameters of the image tool *)

Ltac trace_leaf :=
  first [ exists []; reflexivity
        | eexists [_]; reflexivity
        | eexists [_; _]; reflexivity
        | eexists [_; _; _]; reflexivity ].

(** The first effect of the [try] block is the generation request, made
    of the model, the modalities and the prompt. *)
Lemma generateImage_body_request prompt outputFormat env s :
  exists evs,
    trace (snd (generateImage_body prompt outputFormat env s))
    = evs ++ (clock s, GenerateContent image_model ["Text"; "Image"] prompt) :: trace s.
Proof.
  unfold generateImage_body. run_handler.
  destruct (generateContent_reply env prompt) as [latency [e|result]]; run_handler;
    [trace_leaf|].
  unfold response_parts.
  destruct (GenerateContentResult.candidates result) as [[|candidate ?]|]; run_handler;
    try trace_leaf.
  destruct (Candidate.content candidate) as [c|]; run_handler; try trace_leaf.
  destruct (Content.parts c) as [parts|]; run_handler; try trace_leaf.
  destruct (scan_parts parts None None) as [[imageResult|] textResult]; run_handler.
  - destruct (InlineData.data imageResult) as [imageData|]; run_handler; [|trace_leaf].
    match goal with
    | |- context [writeFileSync_error env ?f ?b] =>
        destruct (writeFileSync_error env f b) as [e|]
    end; run_handler; trace_leaf.
  - destruct (JS.truthy textResult); run_handler; trace_leaf.
Qed.

(** Claim C9.  The [aspectRatio] parameter of [generateImage] has no effect:
    two calls with the same prompt and the same [outputFormat], whatever
    their [aspectRatio], run identically (same result, same files, same
    trace of effects), and the generation request a call issues is made of
    the model, the modalities and the prompt alone. *)
Theorem generateImage_ignores_aspectRatio params1 params2 env s :
  ImageParams.prompt params1 = ImageParams.prompt params2 ->
  ImageParams.outputFormat params1 = ImageParams.outputFormat params2 ->
  generateImage params1 env s = generateImage params2 env s
  /\ exists evs,
       trace (snd (generateImage params1 env s))
       = evs ++ (clock s,
                 GenerateContent image_model ["Text"; "Image"]
                   (JS.or_default (Some (ImageParams.prompt params1))
                      "Default image prompt"))
              :: trace s.
Proof.
  intros Hprompt Hformat. split.
  - destruct params1 as [prompt1 aspectRatio1 outputFormat1].
    destruct params2 as [prompt2 aspectRatio2 outputFormat2].
    cbn in Hprompt, Hformat. subst. reflexivity.
  - rewrite generateImage_caught. cbn zeta.
    destruct (generateImage_body_request
                (JS.or_default (Some (ImageParams.prompt params1)) "Default image prompt")
                (JS.or_default (ImageParams.outputFormat params1) "png") env s)
      as [evs Htrace].
    destruct (generateImage_body _ _ env s) as [[r|e|] s1]; cbn [snd] in *;
      try (exists evs; exact Htrace).
    cbn [trace]. exists ((clock s1, ConsoleErrorObj "Image generation error:" e) :: evs).
    rewrite Htrace. reflexivity.
Qed.

(** ** The MIME type and the file name of an image result *)









Module ImageWorld.

(** A world whose model answers with the interleaved parts of
    [Samples.interleaved], whose payloads say [image/webp]. *)
Definition env : Env :=
  mkEnv (Some "KEY") "/srv"
    (fun _ => "QUJD") (fun _ => Demo.body)
    (fun _ => (250%N, inr (GenerateContentResult.mk
                             (Some [Candidate.mk
                                      (Some (Content.mk (Some Samples.interleaved)))]))))
    (fun _ => (0%N, inl (mkError "unused")))
    (fun _ _ => (0%N, inl (mkError "unused")))
    (fun _ => 0%N)
    (fun _ => (0%N, inl (mkError "unused")))
    (fun _ _ => None).

Definition params : ImageParams.t := ImageParams.mk "a cat" (Some "16:9") (Some "jpeg").

End ImageWorld.

Example image_call :
  generateImage ImageWorld.params ImageWorld.env Demo.state0
  = (Val (Some (mkResponse [ImageItem "WQ==" "image/jpeg"])),
     mkState 1700000000250
       (<["gemini-image-1700000000250.jpeg" := File Demo.body]> ∅) 0
       [(1700000000250, ConsoleError "Image saved as gemini-image-1700000000250.jpeg");
        (1700000000250, WriteFileSync "gemini-image-1700000000250.jpeg" Demo.body None);
        (1700000000000, GenerateContent image_model ["Text"; "Image"] "a cat")]).
Proof. vm_compute. reflexivity. Qed.

Lemma generateImage_ignores_aspectRatio_witness :
  generateImage (ImageParams.mk "a cat" (Some "16:9") (Some "jpeg")) ImageWorld.env Demo.state0
  = generateImage (ImageParams.mk "a cat" None (Some "jpeg")) ImageWorld.env Demo.state0.
Proof.
  apply (generateImage_ignores_aspectRatio
           (ImageParams.mk "a cat" (Some "16:9") (Some "jpeg"))
           (ImageParams.mk "a cat" None (Some "jpeg")) ImageWorld.env Demo.state0
           eq_refl eq_refl).
Defined.



(** ** The polling loop: time-out *)

(** Every poll resolves with a snapshot that is not done. *)
Definition never_done (env : Env) : Prop :=
  forall k operation,
    exists operation', snd (getVideosOperation_reply env k operation) = inr operation'
                       /\ Operation.done operation' = false.

(** The snapshot held after [n] polls, the first of which is the poll
    number [k] and starts from [operation]. *)
Fixpoint snapshot (env : Env) (k : nat) (operation : Operation.t) (n : nat) : Operation.t :=
  match n with
  | O => operation
  | S n' =>
      match snd (getVideosOperation_reply env k operation) with
      | inr operation' => snapshot env (S k) operation' n'
      | inl _ => operation
      end
  end.

Lemma poll_fuel_ge fuel fuel' startTime operation env s :
  (fuel <= fuel')%nat ->
  fst (poll fuel startTime operation env s) <> OutOfFuel ->
  poll fuel' startTime operation env s = poll fuel startTime operation env s.
Proof.
  induction 1 as [|fuel' Hle IH]; intros Hok; [reflexivity|].
  rewrite poll_fuel_more; [apply IH; exact Hok|].
  rewrite IH; assumption.
Qed.

Lemma poll_never_done fuel : forall startTime operation env s,
  never_done env ->
  Operation.done operation = false ->
  (1 <= fuel)%nat ->
  maxWait - (clock s - startTime) < (Z.of_nat fuel - 1) * Z.of_N pollInterval ->
  exists n s',
    poll fuel startTime operation env s
    = (Val (inl (timed_out_response (snapshot env (polls s) operation n))), s')
    /\ polls s' = (polls s + n)%nat /\ (n < fuel)%nat /\ maxWait < clock s' - startTime.
Proof.
  induction fuel as [|fuel IH]; intros startTime operation env s Hnever Hpending Hpos Hroom;
    [lia|].
  rewrite poll_round, Hpending.
  destruct (maxWait <? clock s - startTime) eqn:Hbudget.
  { apply Z.ltb_lt in Hbudget. exists 0%nat, s. cbn [snapshot].
    repeat split; [lia|lia|exact Hbudget]. }
  apply Z.ltb_ge in Hbudget. cbn zeta.
  destruct (Hnever (polls s) operation) as [operation' [Hreply Hpending']].
  rewrite Hreply.
  set (s2 := after_poll _ operation (after_sleep env (clock s - startTime) s)).
  assert (Hpolls2 : polls s2 = S (polls s)) by reflexivity.
  assert (Hclock2 : clock s + Z.of_N pollInterval <= clock s2).
  { subst s2. unfold after_poll, after_sleep. cbn [clock]. lia. }
  destruct (IH startTime operation' env s2 Hnever Hpending') as [n [s' [Hrun [Hp [Hn Hover]]]]].
  - unfold pollInterval in Hroom. lia.
  - unfold pollInterval in *. lia.
  - exists (S n), s'. cbn [snapshot]. rewrite Hreply, <- Hpolls2.
    repeat split; [exact Hrun|lia|lia|exact Hover].
Qed.

(** The claim C3 says the time-out outcome carries the elapsed time: then
    the elapsed time could be read off the response. *)
Definition timed_out_carries_elapsed : Prop :=
  exists elapsed_of : ToolResponse -> Z,
    forall env s operation response s',
      never_done env ->
      poll poll_fuel (clock s) operation env s = (Val (inl response), s') ->
      elapsed_of response = clock s' - clock s.

Lemma never_done_demo late : never_done (Demo.env_never late).
Proof. intros k operation. eexists. split; reflexivity. Qed.

(** Claim C3, refuted as stated: two never-ending operations, one with exact
    timers and one whose timers are 7 ms late, time out after 310000 ms and
    300210 ms with the same response. *)
Lemma timed_out_carries_elapsed_fails : ~ timed_out_carries_elapsed.
Proof.
  intros [elapsed_of Hcarry].
  pose proof (Hcarry (Demo.env_never 0) Demo.state0 (Demo.pending "operations/1")
                (timed_out_response (Demo.pending "operations/1"))
                (snd (poll poll_fuel (clock Demo.state0) (Demo.pending "operations/1")
                        (Demo.env_never 0) Demo.state0))
                (never_done_demo 0)) as Hexact.
  pose proof (Hcarry (Demo.env_never 7) Demo.state0 (Demo.pending "operations/1")
                (timed_out_response (Demo.pending "operations/1"))
                (snd (poll poll_fuel (clock Demo.state0) (Demo.pending "operations/1")
                        (Demo.env_never 7) Demo.state0))
                (never_done_demo 7)) as Hlate.
  assert (Hexact' := Hexact ltac:(vm_compute; reflexivity)).
  assert (Hlate' := Hlate ltac:(vm_compute; reflexivity)).
  rewrite Hexact' in Hlate'. vm_compute in Hlate'. discriminate Hlate'.
Qed.

(** Claim C3, amended.  For an operation that never reports done, the loop
    ends by returning the time-out response, which carries the name of the
    operation held at that moment (the snapshot of the last poll) and the
    fixed text "5 minutes", not the elapsed time.  The elapsed time is
    checked before each sleep: every sleep of the loop begins within the
    budget of 300000 ms and lasts [pollInterval], and the loop returns at
    the first check that finds the budget exceeded, after at most 31 polls
    and without any file write. *)
Theorem poll_times_out fuel operation env s :
  never_done env ->
  Operation.done operation = false ->
  (poll_fuel <= fuel)%nat ->
  exists n s' evs,
    poll fuel (clock s) operation env s
    = (Val (inl (text_response
                   ("Video generation timed out after 5 minutes. Operation: "
                    +:+ JS.interp (Operation.name (snapshot env (polls s) operation n))))),
       s')
    /\ polls s' = (polls s + n)%nat /\ (n <= 31)%nat
    /\ maxWait < clock s' - clock s
    /\ trace s' = evs ++ trace s
    /\ Forall (loop_event (clock s)) evs
    /\ write_calls evs = 0%nat
    /\ fs s' = fs s.
Proof.
  intros Hnever Hpending Hfuel.
  destruct (poll_never_done poll_fuel (clock s) operation env s Hnever Hpending)
    as [n [s' [Hrun [Hpolls [Hn Hover]]]]].
  - unfold poll_fuel. lia.
  - unfold poll_fuel, maxWait, pollInterval. lia.
  - assert (Hsame : poll fuel (clock s) operation env s
                    = poll poll_fuel (clock s) operation env s).
    { apply poll_fuel_ge; [exact Hfuel|]. rewrite Hrun. discriminate. }
    destruct (poll_effects _ _ _ _ _ _ _ Hrun) as [Hfs [evs [Htr [Hall _]]]].
    exists n, s', evs. rewrite Hsame, Hrun.
    repeat split; try assumption.
    + unfold poll_fuel in Hn. lia.
    + eapply loop_event_no_write; eassumption.
Qed.

Lemma poll_times_out_witness :
  exists n s' evs,
    poll poll_fuel (clock Demo.state0) (Demo.pending "operations/1") (Demo.env_never 7)
      Demo.state0
    = (Val (inl (text_response
                   ("Video generation timed out after 5 minutes. Operation: "
                    +:+ JS.interp (Operation.name
                                     (snapshot (Demo.env_never 7) (polls Demo.state0)
                                        (Demo.pending "operations/1") n))))),
       s')
    /\ polls s' = (polls Demo.state0 + n)%nat /\ (n <= 31)%nat
    /\ maxWait < clock s' - clock Demo.state0
    /\ trace s' = evs ++ trace Demo.state0
    /\ Forall (loop_event (clock Demo.state0)) evs
    /\ write_calls evs = 0%nat
    /\ fs s' = fs Demo.state0.
Proof.
  apply (poll_times_out poll_fuel (Demo.pending "operations/1") (Demo.env_never 7)
           Demo.state0 (never_done_demo 7) eq_refl).
  unfold poll_fuel. lia.
Defined.

(** The same on a whole call. *)
Example timed_out_call :
  let run := generateVideo poll_fuel Demo.params0 (Demo.env_never 7) Demo.state0 in
  fst run = Val (Some (timed_out_response (Demo.pending "operations/1")))
  /\ clock (snd run) - clock Demo.state0 = 300210
  /\ polls (snd run) = 30%nat
  /\ fs (snd run) = ∅.
Proof. vm_compute. repeat split; reflexivity. Qed.

(** ** The polling loop: completion *)

(** The operation held is not done, the next [n] polls, from the poll number
    [k] on, resolve with snapshots that are not done, and the poll after
    them resolves with [final], which is done. *)
Fixpoint done_on_poll (env : Env) (k : nat) (operation : Operation.t) (n : nat)
    (final : Operation.t) : Prop :=
  Operation.done operation = false /\
  match n with
  | O => snd (getVideosOperation_reply env k operation) = inr final
         /\ Operation.done final = true
  | S n' =>
      exists operation',
        snd (getVideosOperation_reply env k operation) = inr operation'
        /\ done_on_poll env (S k) operation' n' final
  end.

(** The time the first [n] rounds of the loop take: for each, the sleep,
    the lateness of its timer and the latency of its poll. *)
Fixpoint rounds_duration (env : Env) (k : nat) (operation : Operation.t) (n : nat) : Z :=
  match n with
  | O => 0
  | S n' =>
      Z.of_N pollInterval + Z.of_N (timer_lateness env k)
      + Z.of_N (fst (getVideosOperation_reply env k operation))
      + match snd (getVideosOperation_reply env k operation) with
        | inr operation' => rounds_duration env (S k) operation' n'
        | inl _ => 0
        end
  end.

Lemma rounds_duration_ge env n : forall k operation final,
  done_on_poll env k operation n final ->
  Z.of_nat n * Z.of_N pollInterval <= rounds_duration env k operation n.
Proof.
  induction n as [|n IH]; intros k operation final Hdone; [reflexivity|].
  destruct Hdone as [_ [operation' [Hreply Hrest]]].
  cbn [rounds_duration]. rewrite Hreply. specialize (IH _ _ _ Hrest). lia.
Qed.

Lemma poll_until_done_rounds n : forall fuel startTime operation final env s,
  done_on_poll env (polls s) operation n final ->
  clock s - startTime + rounds_duration env (polls s) operation n <= maxWait ->
  (n < fuel)%nat ->
  exists s',
    poll fuel startTime operation env s = (Val (inr final), s')
    /\ polls s' = (polls s + n + 1)%nat.
Proof.
  induction n as [|n IH]; intros fuel startTime operation final env s Hdone Hbudget Hfuel;
    (destruct fuel as [|fuel]; [lia|]); rewrite poll_round;
    destruct Hdone as [Hpending Hnext]; rewrite Hpending.
  - destruct Hnext as [Hreply Hfinal]. cbn [rounds_duration] in Hbudget.
    destruct (maxWait <? clock s - startTime) eqn:Hcheck;
      [apply Z.ltb_lt in Hcheck; lia|].
    cbn zeta. rewrite Hreply. rewrite poll_done by exact Hfinal.
    eexists. split; [reflexivity|]. cbn [polls after_poll after_sleep]. lia.
  - destruct Hnext as [operation' [Hreply Hrest]].
    pose proof (rounds_duration_ge _ _ _ _ _ Hrest) as Hge.
    cbn [rounds_duration] in Hbudget. rewrite Hreply in Hbudget.
    destruct (maxWait <? clock s - startTime) eqn:Hcheck;
      [apply Z.ltb_lt in Hcheck; lia|].
    cbn zeta. rewrite Hreply.
    set (s2 := after_poll _ operation (after_sleep env (clock s - startTime) s)).
    destruct (IH fuel startTime operation' final env s2) as [s' [Hrun Hpolls]].
    + exact Hrest.
    + subst s2. cbn [clock polls after_poll after_sleep]. lia.
    + lia.
    + exists s'. split; [exact Hrun|]. rewrite Hpolls. subst s2.
      cbn [polls after_poll after_sleep]. lia.
Qed.

(** The claim C4 as the specification words it, for every number [n] of
    polls that are not done, with fuel to spare. *)
Definition polls_until_done : Prop :=
  forall n env s operation final,
    done_on_poll env (polls s) operation n final ->
    exists s',
      poll (n + 2) (clock s) operation env s = (Val (inr final), s')
      /\ polls s' = (polls s + n + 1)%nat.

Lemma done_on_poll_demo n late r :
  done_on_poll (Demo.env_done_on n late r) 0 (Demo.pending "operations/1") n
    (Demo.finished "operations/1" r).
Proof.
  assert (Hgen : forall m k, (k + m = n)%nat ->
            done_on_poll (Demo.env_done_on n late r) k (Demo.pending "operations/1") m
              (Demo.finished "operations/1" r)).
  { induction m as [|m IH]; intros k Hk; cbn [done_on_poll]; (split; [reflexivity|]).
    - cbn. destruct (Nat.leb_spec n k) as [_|Hlt]; [split; reflexivity|lia].
    - exists (Demo.pending "operations/1"). cbn.
      destruct (Nat.leb_spec n k) as [Hle|_]; [lia|].
      split; [reflexivity|]. apply IH. lia. }
  apply Hgen. lia.
Qed.

(** Claim C4, refuted as stated: with 31 polls that are not done and exact
    timers, the check before the 32nd sleep finds 310000 ms elapsed and the
    loop returns the time-out response after 31 polls. *)
Lemma polls_until_done_fails : ~ polls_until_done.
Proof.
  intros H.
  destruct (H 31%nat (Demo.env_done_on 31 0 Responses.videos_only) Demo.state0
              (Demo.pending "operations/1")
              (Demo.finished "operations/1" Responses.videos_only)
              (done_on_poll_demo 31 0 Responses.videos_only)) as [s' [Hrun _]].
  vm_compute in Hrun. discriminate Hrun.
Qed.

(** Claim C4, amended.  Given an operation whose snapshots are not done for
    the first N polls and done on poll N+1, and provided those N rounds
    (sleep, lateness of the timer, latency of the poll) fit in the budget of
    300000 ms, which requires N <= 30, the loop performs exactly N+1 calls
    of [getVideosOperation] and ends with the done snapshot, handed to the
    Done handling. *)
Theorem poll_until_done n fuel operation final env s :
  done_on_poll env (polls s) operation n final ->
  rounds_duration env (polls s) operation n <= maxWait ->
  (n < fuel)%nat ->
  (n <= 30)%nat /\
  exists s' evs,
    poll fuel (clock s) operation env s = (Val (inr final), s')
    /\ polls s' = (polls s + n + 1)%nat
    /\ trace s' = evs ++ trace s
    /\ poll_calls evs = (n + 1)%nat.
Proof.
  intros Hdone Hbudget Hfuel. split.
  - pose proof (rounds_duration_ge _ _ _ _ _ Hdone) as Hge.
    unfold maxWait, pollInterval in *. lia.
  - destruct (poll_until_done_rounds n fuel (clock s) operation final env s Hdone)
      as [s' [Hrun Hpolls]]; [lia|exact Hfuel|].
    destruct (poll_effects _ _ _ _ _ _ _ Hrun) as [_ [evs [Htr [_ Hcount]]]].
    exists s', evs. repeat split; try assumption. lia.
Qed.

Lemma poll_until_done_witness :
  (30 <= 30)%nat /\
  exists s' evs,
    poll poll_fuel (clock Demo.state0) (Demo.pending "operations/1")
      (Demo.env_done_on 30 0 Responses.videos_only) Demo.state0
    = (Val (inr (Demo.finished "operations/1" Responses.videos_only)), s')
    /\ polls s' = (polls Demo.state0 + 30 + 1)%nat
    /\ trace s' = evs ++ trace Demo.state0
    /\ poll_calls evs = (30 + 1)%nat.
Proof.
  apply (poll_until_done 30 poll_fuel (Demo.pending "operations/1")
           (Demo.finished "operations/1" Responses.videos_only)
           (Demo.env_done_on 30 0 Responses.videos_only) Demo.state0
           (done_on_poll_demo 30 0 Responses.videos_only)).
  - vm_compute. discriminate.
  - unfold poll_fuel. lia.
Defined.

(** ** File writes and endings *)

















(** ** Exceptions *)

Module Faults.

Definition denied : JsError := mkError "EACCES: permission denied, open".

(** The submission is rejected. *)
Definition submission : Env :=
  mkEnv None "/srv" (fun _ => "QUJD") (fun _ => Demo.body)
    (fun _ => (0%N, inl (mkError "fetch failed")))
    (fun _ => (120%N, inl (mkError "API key not valid")))
    (fun _ _ => (0%N, inr (Demo.pending "operations/1")))
    (fun _ => 0%N)
    (fun _ => (0%N, inl (mkError "fetch failed")))
    (fun _ _ => None).

(** The third poll is rejected. *)
Definition polling : Env :=
  mkEnv None "/srv" (fun _ => "QUJD") (fun _ => Demo.body)
    (fun _ => (0%N, inl (mkError "fetch failed")))
    (fun _ => (0%N, inr (Demo.pending "operations/1")))
    (fun k _ => (35%N, if (2 <=? k)%nat then inl (mkError "503 Service Unavailable")
                       else inr (Demo.pending "operations/1")))
    (fun _ => 0%N)
    (fun _ => (0%N, inl (mkError "fetch failed")))
    (fun _ _ => None).

(** The operation is done at once; the download answers, and its body
    cannot be read. *)
Definition download : Env :=
  mkEnv None "/srv" (fun _ => "QUJD") (fun _ => Demo.body)
    (fun _ => (0%N, inl (mkError "fetch failed")))
    (fun _ => (0%N, inr (Demo.finished "operations/1" Responses.videos_only)))
    (fun _ _ => (0%N, inr (Demo.pending "operations/1")))
    (fun _ => 0%N)
    (fun _ => (0%N, inr (FetchResponse.mk true 200 "OK" 40 (inl (mkError "terminated")))))
    (fun _ _ => None).

(** Everything succeeds but the write of the file. *)
Definition writing : Env :=
  mkEnv None "/srv" (fun _ => "QUJD") (fun _ => Demo.body)
    (fun _ => (0%N, inr (GenerateContentResult.mk
                           (Some [Candidate.mk
                                    (Some (Content.mk (Some Samples.interleaved)))]))))
    (fun _ => (0%N, inr (Demo.finished "operations/1" Responses.videos_only)))
    (fun _ _ => (0%N, inr (Demo.pending "operations/1")))
    (fun _ => 0%N)
    (fun _ => (0%N, inr (FetchResponse.mk true 200 "OK" 0 (inr Demo.body))))
    (fun _ _ => Some denied).

(** The model answers without candidates. *)
Definition malformed : Env :=
  mkEnv None "/srv" (fun _ => "QUJD") (fun _ => Demo.body)
    (fun _ => (0%N, inr (GenerateContentResult.mk None)))
    (fun _ => (0%N, inl (mkError "unused")))
    (fun _ _ => (0%N, inl (mkError "unused")))
    (fun _ => 0%N)
    (fun _ => (0%N, inl (mkError "unused")))
    (fun _ _ => None).

(** A seed image that exists and cannot be read. *)
Definition locked_seed : State :=
  mkState 1700000000000 (<["/tmp/seed.png" := Unreadable denied]> ∅) 0 [].

End Faults.

Example submission_rejected :
  fst (generateVideo poll_fuel Demo.params0 Faults.submission Demo.state0)
  = Val (Some (text_response "Error generating video: API key not valid")).
Proof. vm_compute. reflexivity. Qed.

Example poll_rejected :
  fst (generateVideo poll_fuel Demo.params0 Faults.polling Demo.state0)
  = Val (Some (text_response "Error generating video: 503 Service Unavailable")).
Proof. vm_compute. reflexivity. Qed.

Example download_body_rejected :
  fst (generateVideo poll_fuel Demo.params0 Faults.download Demo.state0)
  = Val (Some (text_response "Error generating video: terminated")).
Proof. vm_compute. reflexivity. Qed.

Example seed_unreadable :
  fst (generateVideo poll_fuel (Seeds.params_with "/tmp/seed.png") Faults.submission
         Faults.locked_seed)
  = Val (Some (text_response "Error generating video: EACCES: permission denied, open")).
Proof. vm_compute. reflexivity. Qed.

Example video_write_throws :
  let run := generateVideo poll_fuel Demo.params0 Faults.writing Demo.state0 in
  fst run = Val (Some (text_response
                         "Error generating video: EACCES: permission denied, open"))
  /\ fs (snd run) = ∅
  /\ write_calls (trace (snd run)) = 1%nat
  /\ completed_writes (trace (snd run)) = 0%nat.
Proof. vm_compute. repeat split; reflexivity. Qed.

Example image_write_throws :
  fst (generateImage ImageWorld.params Faults.writing Demo.state0)
  = Val (Some (text_response "Error generating image: EACCES: permission denied, open")).
Proof. vm_compute. reflexivity. Qed.

Example image_reply_malformed :
  fst (generateImage ImageWorld.params Faults.malformed Demo.state0)
  = Val (Some (text_response
                 "Error generating image: Cannot read properties of undefined (reading '0')")).
Proof. vm_compute. reflexivity. Qed.

(** Claim C6.  Whatever the world answers, a call of [generateVideo] or
    [generateImage] returns and never throws: the video handler always
    returns a response, the image handler a response or [undefined].  An
    exception raised anywhere in the [try] block (submission, polling,
    download, file I/O, access to the response) is turned by the [catch]
    clause into a returned text made of a fixed prefix and the message of
    the error. *)
Theorem exceptions_become_responses :
  (forall fuel params env s,
     (poll_fuel <= fuel)%nat ->
     exists response, fst (generateVideo fuel params env s) = Val (Some response))
  /\ (forall params env s,
        exists r, fst (generateImage params env s) = Val r)
  /\ (forall fuel params env s e s1,
        generateVideo_body fuel params (VideoParams.prompt params)
          (JS.or_default (VideoParams.aspectRatio params) "9:16")
          (JS.or_default (VideoParams.model params) "veo-3.0-generate-001") env s
        = (Exn e, s1) ->
        fst (generateVideo fuel params env s)
        = Val (Some (text_response ("Error generating video: " +:+ message e))))
  /\ (forall params env s e s1,
        generateImage_body
          (JS.or_default (Some (ImageParams.prompt params)) "Default image prompt")
          (JS.or_default (ImageParams.outputFormat params) "png") env s
        = (Exn e, s1) ->
        fst (generateImage params env s)
        = Val (Some (text_response ("Error generating image: " +:+ message e)))).
Proof.
  split; [|split; [|split]].
  - intros fuel params env s Hfuel.
    pose proof (generateVideo_ending fuel params env s) as Hend.
    destruct (generateVideo fuel params env s) as [r s']. cbn [fst snd] in *.
    inversion Hend; subst; try (eexists; reflexivity). lia.
  - intros params env s.
    pose proof (generateImage_ending params env s) as Hend.
    destruct (generateImage params env s) as [r s']. cbn [fst snd] in *.
    inversion Hend; subst; eexists; reflexivity.
  - intros fuel params env s e s1 Hbody.
    rewrite generateVideo_caught. cbn zeta. rewrite Hbody. reflexivity.
  - intros params env s e s1 Hbody.
    rewrite generateImage_caught. cbn zeta. rewrite Hbody. reflexivity.
Qed.

Lemma exceptions_become_responses_witness :
  fst (generateVideo poll_fuel Demo.params0 Faults.submission Demo.state0)
  = Val (Some (text_response ("Error generating video: " +:+ "API key not valid"))).
Proof.
  apply (proj1 (proj2 (proj2 exceptions_become_responses)) poll_fuel Demo.params0
           Faults.submission Demo.state0 (mkError "API key not valid")
           (snd (generateVideo_body poll_fuel Demo.params0 "a cat" "9:16"
                   "veo-3.0-generate-001" Faults.submission Demo.state0))).
  vm_compute. reflexivity.
Defined.

(** Whole calls on either side of the budget: with exact timers, an
    operation done on poll 31 is fetched and saved, one done on poll 32
    times out after 31 polls. *)
Example done_on_poll_31_call :
  let run := generateVideo poll_fuel Demo.params0
               (Demo.env_done_on 30 0 Responses.videos_only) Demo.state0 in
  fst run = Val (Some (success_response "/srv/gemini-video-1700000310000.mp4" "0.0"
                         "veo-3.0-generate-001" "9:16"))
  /\ polls (snd run) = 31%nat.
Proof. vm_compute. split; reflexivity. Qed.

Example done_on_poll_32_call :
  let run := generateVideo poll_fuel Demo.params0
               (Demo.env_done_on 31 0 Responses.videos_only) Demo.state0 in
  fst run = Val (Some (timed_out_response (Demo.pending "operations/1")))
  /\ polls (snd run) = 31%nat.
Proof. vm_compute. split; reflexivity. Qed.

(** * Further properties of the handlers *)

(** ** The image handler, result by result *)

(** The text of a part as the scan sees it: present and not empty. *)
Definition nonempty_text (part : Part.t) : option string :=
  if JS.truthy (Part.text part) then Part.text part else None.

Lemma nonempty_text_truthy part text :
  nonempty_text part = Some text -> JS.truthy (Some text) = true.
Proof.
  unfold nonempty_text. destruct (JS.truthy (Part.text part)) eqn:Htruthy; [|discriminate].
  intros Htext. rewrite Htext in Htruthy. exact Htruthy.
Qed.

(** Without binary parts the scan leaves [imageResult] alone and ends with
    the last non-empty text, or with what [textResult] held if there is
    none. *)
Lemma scan_parts_text parts : forall imageResult textResult,
  Forall no_binary parts ->
  scan_parts parts imageResult textResult
  = (imageResult,
     match last (omap nonempty_text parts) with
     | Some text => Some text
     | None => textResult
     end).
Proof.
  induction parts as [|part parts IH]; intros imageResult textResult Hall; [reflexivity|].
  inversion Hall as [|? ? Hpart Hrest]; subst. unfold no_binary in Hpart.
  cbn [scan_parts omap list_omap]. rewrite Hpart. unfold nonempty_text at 1.
  destruct (JS.truthy (Part.text part)) eqn:Htruthy.
  - destruct (Part.text part) as [text|] eqn:Htext; [|discriminate].
    rewrite IH by exact Hrest. rewrite last_cons.
    destruct (last (omap nonempty_text parts)); reflexivity.
  - apply IH. exact Hrest.
Qed.

Ltac image_reply Hreply Hcandidates :=
  unfold generateImage, generateImage_body; run_handler;
  rewrite Hreply; run_handler;
  unfold response_parts; rewrite Hcandidates;
  cbn [Candidate.content Content.parts]; run_handler.

Module TextWorld.

(** A model that declines and explains itself in several text parts, one
    of them empty. *)
Definition parts : list Part.t :=
  [Samples.textPart "I cannot"; Samples.textPart "draw that."; Samples.textPart ""].

Definition reply (parts : list Part.t) : GenerateContentResult.t :=
  GenerateContentResult.mk (Some [Candidate.mk (Some (Content.mk (Some parts)))]).

Definition env_with (parts : list Part.t) : Env :=
  mkEnv (Some "KEY") "/srv"
    (fun _ => "QUJD") (fun _ => Demo.body)
    (fun _ => (250%N, inr (reply parts)))
    (fun _ => (0%N, inl (mkError "unused")))
    (fun _ _ => (0%N, inl (mkError "unused")))
    (fun _ => 0%N)
    (fun _ => (0%N, inl (mkError "unused")))
    (fun _ _ => None).

End TextWorld.

(** Property X1.  When the reply has no binary part and at least one
    non-empty text part, [generateImage] returns the text of the LAST
    non-empty text part (empty texts are skipped), logs it, and touches no
    file. *)
Theorem generateImage_last_text params env s latency result rest parts text :
  generateContent_reply env
    (JS.or_default (Some (ImageParams.prompt params)) "Default image prompt")
  = (latency, inr result) ->
  GenerateContentResult.candidates result
  = Some (Candidate.mk (Some (Content.mk (Some parts))) :: rest) ->
  Forall no_binary parts ->
  last (omap nonempty_text parts) = Some text ->
  generateImage params env s
  = (Val (Some (text_response text)),
     mkState (clock s + Z.of_N latency) (fs s) (polls s)
       ((clock s + Z.of_N latency,
         ConsoleError ("No image generated, text response: " +:+ text))
        :: (clock s,
            GenerateContent image_model ["Text"; "Image"]
              (JS.or_default (Some (ImageParams.prompt params)) "Default image prompt"))
        :: trace s)).
Proof.
  intros Hreply Hcandidates Hnone Hlast.
  assert (Htruthy : JS.truthy (Some text) = true).
  { apply last_Some_elem_of in Hlast. apply list_elem_of_omap in Hlast.
    destruct Hlast as [part [_ Hpart]]. eapply nonempty_text_truthy. exact Hpart. }
  image_reply Hreply Hcandidates.
  rewrite (scan_parts_text parts None None Hnone), Hlast, Htruthy. run_handler.
  reflexivity.
Qed.

Lemma generateImage_last_text_witness :
  fst (generateImage ImageWorld.params (TextWorld.env_with TextWorld.parts) Demo.state0)
  = Val (Some (text_response "draw that.")).
Proof.
  rewrite (generateImage_last_text ImageWorld.params (TextWorld.env_with TextWorld.parts)
             Demo.state0 250%N (TextWorld.reply TextWorld.parts) [] TextWorld.parts
             "draw that." eq_refl eq_refl).
  - reflexivity.
  - repeat constructor.
  - reflexivity.
Defined.

(** Property X2.  When the reply has neither a binary part nor a non-empty
    text part (an empty list of parts included), [generateImage] returns
    [undefined]: no content, no error, and no effect beyond the generation
    request. *)
Theorem generateImage_nothing params env s latency result rest parts :
  generateContent_reply env
    (JS.or_default (Some (ImageParams.prompt params)) "Default image prompt")
  = (latency, inr result) ->
  GenerateContentResult.candidates result
  = Some (Candidate.mk (Some (Content.mk (Some parts))) :: rest) ->
  Forall no_binary parts ->
  omap nonempty_text parts = [] ->
  generateImage params env s
  = (Val None,
     mkState (clock s + Z.of_N latency) (fs s) (polls s)
       ((clock s,
         GenerateContent image_model ["Text"; "Image"]
           (JS.or_default (Some (ImageParams.prompt params)) "Default image prompt"))
        :: trace s)).
Proof.
  intros Hreply Hcandidates Hnone Htexts.
  image_reply Hreply Hcandidates.
  rewrite (scan_parts_text parts None None Hnone), Htexts. cbn [last JS.truthy].
  run_handler. reflexivity.
Qed.

Lemma generateImage_nothing_witness :
  fst (generateImage ImageWorld.params (TextWorld.env_with [Samples.textPart ""])
         Demo.state0)
  = Val None.
Proof.
  rewrite (generateImage_nothing ImageWorld.params
             (TextWorld.env_with [Samples.textPart ""]) Demo.state0 250%N
             (TextWorld.reply [Samples.textPart ""]) [] [Samples.textPart ""]
             eq_refl eq_refl).
  - reflexivity.
  - repeat constructor.
  - reflexivity.
Defined.

(** Property X3.  When the reply has a binary part, [generateImage] returns
    the base64 payload of the last binary part as image content and saves
    its decoded bytes under [gemini-image-<millis>.<outputFormat>], where
    the milliseconds are the time the reply arrived; the text parts around
    it are neither returned nor logged. *)
Theorem generateImage_saves_last_binary
    params env s latency result rest pre part post d imageData :
  let prompt := JS.or_default (Some (ImageParams.prompt params)) "Default image prompt" in
  let outputFormat := JS.or_default (ImageParams.outputFormat params) "png" in
  let arrived := clock s + Z.of_N latency in
  let filename := image_filename arrived outputFormat in
  generateContent_reply env prompt = (latency, inr result) ->
  GenerateContentResult.candidates result
  = Some (Candidate.mk (Some (Content.mk (Some (pre ++ part :: post)))) :: rest) ->
  Part.inlineData part = Some d ->
  Forall no_binary post ->
  InlineData.data d = Some imageData ->
  writeFileSync_error env filename (from_base64 env imageData) = None ->
  generateImage params env s
  = (Val (Some (mkResponse [ImageItem imageData ("image/" +:+ outputFormat)])),
     mkState arrived (<[filename := File (from_base64 env imageData)]> (fs s)) (polls s)
       ((arrived, ConsoleError ("Image saved as " +:+ filename))
        :: (arrived, WriteFileSync filename (from_base64 env imageData) None)
        :: (clock s, GenerateContent image_model ["Text"; "Image"] prompt)
        :: trace s)).
Proof.
  cbn zeta. intros Hreply Hcandidates Hpart Hpost Hdata Hwrite.
  image_reply Hreply Hcandidates.
  assert (Hscan : scan_parts (pre ++ part :: post) None None
                  = (Some d, snd (scan_parts (pre ++ part :: post) None None))).
  { rewrite (surjective_pairing (scan_parts (pre ++ part :: post) None None)) at 1.
    f_equal. rewrite scan_parts_app. cbn [scan_parts]. rewrite Hpart.
    apply scan_parts_no_binary. exact Hpost. }
  rewrite Hscan. run_handler. rewrite Hdata. run_handler. rewrite Hwrite. run_handler.
  reflexivity.
Qed.

Lemma generateImage_saves_last_binary_witness :
  fs (snd (generateImage ImageWorld.params ImageWorld.env Demo.state0))
  !! "gemini-image-1700000000250.jpeg"
  = Some (File Demo.body).
Proof.
  rewrite (generateImage_saves_last_binary ImageWorld.params ImageWorld.env Demo.state0
             250%N
             (GenerateContentResult.mk
                (Some [Candidate.mk (Some (Content.mk (Some Samples.interleaved)))]))
             []
             [Samples.textPart "a"; Samples.imagePart "WA=="; Samples.textPart "b"]
             (Samples.imagePart "WQ==") []
             (InlineData.mk (Some "WQ==") (Some "image/webp")) "WQ=="
             eq_refl eq_refl eq_refl (Forall_nil_2 _) eq_refl eq_refl).
  reflexivity.
Defined.



(** ** The polling loop, in every world *)

Definition is_sleep (e : Event) : bool :=
  match e with
  | SetTimeout _ => true
  | _ => false
  end.

(** The number of timers set in a trace. *)
Definition sleep_calls (evs : list (Z * Event)) : nat :=
  List.length (List.filter (fun te => is_sleep (snd te)) evs).












(** Property X7.  If every timer is at most [late] milliseconds late and
    every poll takes at most [slow] milliseconds, the polling loop returns
    no later than the budget plus one round: at most
    [maxWait + pollInterval + late + slow] milliseconds after it began. *)
Theorem poll_overshoot fuel late slow : forall operation env s startTime,
  (forall k, (timer_lateness env k <= late)%N) ->
  (forall k operation', (fst (getVideosOperation_reply env k operation') <= slow)%N) ->
  clock s - startTime <= maxWait + Z.of_N pollInterval + Z.of_N late + Z.of_N slow ->
  clock (snd (poll fuel startTime operation env s)) - startTime
  <= maxWait + Z.of_N pollInterval + Z.of_N late + Z.of_N slow.
Proof.
  induction fuel as [|fuel IH]; intros operation env s startTime Hlate Hslow Hentry.
  - cbn [poll]. destruct (Operation.done operation); exact Hentry.
  - rewrite poll_round.
    destruct (Operation.done operation); [exact Hentry|].
    destruct (maxWait <? clock s - startTime) eqn:Hbudget; [exact Hentry|].
    apply Z.ltb_ge in Hbudget. cbn zeta.
    set (s2 := after_poll _ operation (after_sleep env (clock s - startTime) s)).
    assert (Hclock2 : clock s2 - startTime
                      <= maxWait + Z.of_N pollInterval + Z.of_N late + Z.of_N slow).
    { subst s2. unfold after_poll, after_sleep. cbn [clock].
      specialize (Hlate (polls s)). specialize (Hslow (polls s) operation). lia. }
    destruct (snd (getVideosOperation_reply env (polls s) operation)); [exact Hclock2|].
    apply IH; assumption.
Qed.

Lemma poll_overshoot_witness :
  clock (snd (poll poll_fuel (clock Demo.state0) (Demo.pending "operations/1")
                (Demo.env_never 7) Demo.state0)) - clock Demo.state0
  <= maxWait + Z.of_N pollInterval + Z.of_N 7 + Z.of_N 0.
Proof.
  apply (poll_overshoot poll_fuel 7 0 (Demo.pending "operations/1") (Demo.env_never 7)
           Demo.state0 (clock Demo.state0)).
  - intros k. cbn. lia.
  - intros k operation'. cbn. lia.
  - unfold maxWait, pollInterval. lia.
Defined.

(** ** The Done handling, result by result *)

Module Instant.

(** A world where the submission resolves at once with a done operation
    whose response is [r], and the download answers [resp]. *)
Definition env_with (r : VideosResponse.t) (resp : FetchResponse.t) : Env :=
  mkEnv (Some "KEY") "/srv"
    (fun _ => "QUJD") (fun _ => Demo.body)
    (fun _ => (0%N, inl (mkError "unused")))
    (fun _ => (90%N, inr (Demo.finished "operations/1" r)))
    (fun _ _ => (0%N, inl (mkError "unused")))
    (fun _ => 0%N)
    (fun _ => (400%N, inr resp))
    (fun _ _ => None).

Definition ok_response : FetchResponse.t := FetchResponse.mk true 200 "OK" 60 (inr Demo.body).

Definition gone_response : FetchResponse.t :=
  FetchResponse.mk false 403 "Forbidden" 60 (inr Demo.body).

(** The first sample has no video, the second has one. *)
Definition second_sample_only : VideosResponse.t :=
  VideosResponse.mk (Some [Sample.mk None; Demo.clip "https://x/y"]) None
    "{'generatedSamples':[{},{'video':{'uri':'https://x/y'}}]}".

End Instant.

(** Property X8.  When the done operation's first sample has a non-empty
    video URI, the download answers OK, its body can be read and the file
    can be written, the Done handling fetches the URI with the API key
    appended as [key=] (after [&] if the URI has a [?], after [?] if not),
    saves exactly the bytes of the body under [gemini-video-<millis>.mp4],
    and returns the success JSON naming that file resolved against the
    working directory, its size, the model and the aspect ratio. *)
Theorem finish_video_saves_download
    modelId aspectRatio operation env s sample others uri latency resp body :
  let separator := if JS.includes uri "?" then "&" else "?" in
  let url := uri +:+ separator +:+ "key=" +:+ JS.interp (GEMINI_API_KEY env) in
  let saved := clock s + Z.of_N latency + Z.of_N (FetchResponse.body_latency resp) in
  let filename := video_filename saved in
  let size_mb := JS.toFixed1_MB (Z.of_nat (List.length body)) in
  select_samples operation = sample :: others ->
  (v ← Sample.video sample; Video.uri v) = Some uri ->
  uri <> "" ->
  fetch_reply env url = (latency, inr resp) ->
  FetchResponse.ok resp = true ->
  FetchResponse.arrayBuffer resp = inr body ->
  writeFileSync_error env filename body = None ->
  finish_video modelId aspectRatio operation env s
  = (Val (Some (success_response (path.resolve (cwd env) filename) size_mb
                  modelId aspectRatio)),
     mkState saved (<[filename := File body]> (fs s)) (polls s)
       ((saved, ConsoleError ("[Veo] Video saved as " +:+ filename +:+ " (" +:+ size_mb
                              +:+ " MB)"))
        :: (saved, WriteFileSync filename body None)
        :: (clock s, Fetch url)
        :: (clock s, ConsoleError "[Veo] Downloading video...")
        :: (clock s, ConsoleError "[Veo] Generation complete!")
        :: trace s)).
Proof.
  cbn zeta. intros Hsamples Huri Hne Hfetch Hok Hbody Hwrite.
  unfold finish_video. run_handler. rewrite Hsamples, Huri.
  cbn [JS.truthy JS.interp]. unfold JS.truthy_string.
  destruct (String.eqb_spec uri "") as [->|_]; [contradiction|]. cbn [negb].
  run_handler. rewrite Hfetch. run_handler. rewrite Hok. run_handler.
  rewrite Hbody. run_handler. rewrite Hwrite. run_handler. reflexivity.
Qed.

Lemma finish_video_saves_download_witness :
  fs (snd (finish_video "veo-3.0-generate-001" "9:16"
             (Demo.finished "operations/1" Responses.videos_only)
             (Instant.env_with Responses.videos_only Instant.ok_response) Demo.state0))
  !! "gemini-video-1700000000460.mp4"
  = Some (File Demo.body).
Proof.
  rewrite (finish_video_saves_download "veo-3.0-generate-001" "9:16"
             (Demo.finished "operations/1" Responses.videos_only)
             (Instant.env_with Responses.videos_only Instant.ok_response) Demo.state0
             (Demo.clip "https://x/y?a=1") [] "https://x/y?a=1" 400%N Instant.ok_response
             Demo.body eq_refl eq_refl ltac:(discriminate) eq_refl eq_refl eq_refl eq_refl).
  reflexivity.
Defined.

(** Property X9.  When the download does not answer OK, the Done handling
    returns the text [Failed to download video: <status> <statusText>]; the
    body of the response is not read and no file is written. *)
Theorem finish_video_download_not_ok
    modelId aspectRatio operation env s sample others uri latency resp :
  let separator := if JS.includes uri "?" then "&" else "?" in
  let url := uri +:+ separator +:+ "key=" +:+ JS.interp (GEMINI_API_KEY env) in
  select_samples operation = sample :: others ->
  (v ← Sample.video sample; Video.uri v) = Some uri ->
  uri <> "" ->
  fetch_reply env url = (latency, inr resp) ->
  FetchResponse.ok resp = false ->
  finish_video modelId aspectRatio operation env s
  = (Val (Some (text_response ("Failed to download video: "
                               +:+ JS.number (FetchResponse.status resp) +:+ " "
                               +:+ FetchResponse.statusText resp))),
     mkState (clock s + Z.of_N latency) (fs s) (polls s)
       ((clock s, Fetch url)
        :: (clock s, ConsoleError "[Veo] Downloading video...")
        :: (clock s, ConsoleError "[Veo] Generation complete!")
        :: trace s)).
Proof.
  cbn zeta. intros Hsamples Huri Hne Hfetch Hok.
  unfold finish_video. run_handler. rewrite Hsamples, Huri.
  cbn [JS.truthy JS.interp]. unfold JS.truthy_string.
  destruct (String.eqb_spec uri "") as [->|_]; [contradiction|]. cbn [negb].
  run_handler. rewrite Hfetch. run_handler. rewrite Hok. run_handler. reflexivity.
Qed.

Lemma finish_video_download_not_ok_witness :
  fst (finish_video "veo-3.0-generate-001" "9:16"
         (Demo.finished "operations/1" Responses.videos_only)
         (Instant.env_with Responses.videos_only Instant.gone_response) Demo.state0)
  = Val (Some (text_response "Failed to download video: 403 Forbidden")).
Proof.
  rewrite (finish_video_download_not_ok "veo-3.0-generate-001" "9:16"
             (Demo.finished "operations/1" Responses.videos_only)
             (Instant.env_with Responses.videos_only Instant.gone_response) Demo.state0
             (Demo.clip "https://x/y?a=1") [] "https://x/y?a=1" 400%N Instant.gone_response
             eq_refl eq_refl ltac:(discriminate) eq_refl eq_refl).
  reflexivity.
Defined.

(** Property X10.  Only the first sample of the collection is looked at:
    when there is no sample, or the first sample has no video, or its URI is
    absent or empty, the Done handling downloads nothing and returns the
    text that no video was returned, with the JSON of the raw response,
    whatever the later samples hold. *)
Theorem finish_video_first_sample_only modelId aspectRatio operation env s :
  match select_samples operation with
  | [] => True
  | sample :: _ => JS.truthy (v ← Sample.video sample; Video.uri v) = false
  end ->
  finish_video modelId aspectRatio operation env s
  = (Val (Some (text_response
                  ("Video generation completed but no video was returned. Response: "
                   +:+ JS.interp (VideosResponse.json <$> Operation.response operation)))),
     mkState (clock s) (fs s) (polls s)
       ((clock s, ConsoleError "[Veo] Generation complete!") :: trace s)).
Proof.
  intros Hfirst. unfold finish_video. run_handler.
  destruct (select_samples operation) as [|sample others]; [reflexivity|].
  rewrite Hfirst. reflexivity.
Qed.

Lemma finish_video_first_sample_only_witness :
  fst (finish_video "veo-3.0-generate-001" "9:16"
         (Demo.finished "operations/1" Instant.second_sample_only)
         (Instant.env_with Instant.second_sample_only Instant.ok_response) Demo.state0)
  = Val (Some (text_response
                 ("Video generation completed but no video was returned. Response: "
                  +:+ "{'generatedSamples':[{},{'video':{'uri':'https://x/y'}}]}"))).
Proof.
  rewrite (finish_video_first_sample_only "veo-3.0-generate-001" "9:16"
             (Demo.finished "operations/1" Instant.second_sample_only)
             (Instant.env_with Instant.second_sample_only Instant.ok_response)
             Demo.state0 eq_refl).
  reflexivity.
Defined.

(** ** The video handler, phase by phase *)

(** The state after the two log lines the [try] block begins with. *)
Definition after_banner (modelId aspectRatio prompt : string) (s : State) : State :=
  mkState (clock s) (fs s) (polls s)
    ((clock s, ConsoleError ("[Veo] Prompt: " +:+ prompt))
     :: (clock s, ConsoleError ("[Veo] Starting video generation: model=" +:+ modelId
                                +:+ ", aspect=" +:+ aspectRatio))
     :: trace s).

(** The state the polling loop starts in, after the submission left [s1]. *)
Definition at_loop_start (s1 : State) : State :=
  mkState (clock s1) (fs s1) (polls s1)
    ((clock s1, ConsoleError "[Veo] Operation started, polling for completion...")
     :: trace s1).

(** The [try] block is the submission, then the loop, then the Done
    handling, each entered only if the one before returned. *)
Lemma generateVideo_body_phases fuel params prompt aspectRatio modelId env s :
  generateVideo_body fuel params prompt aspectRatio modelId env s
  = match submit params modelId prompt (Config.mk aspectRatio) env
            (after_banner modelId aspectRatio prompt s) with
    | (Val operation, s1) =>
        match poll fuel (clock s1) operation env (at_loop_start s1) with
        | (Val (inl response), s4) => (Val (Some response), s4)
        | (Val (inr operation'), s4) => finish_video modelId aspectRatio operation' env s4
        | (Exn e, s4) => (Exn e, s4)
        | (OutOfFuel, s4) => (OutOfFuel, s4)
        end
    | (Exn e, s1) => (Exn e, s1)
    | (OutOfFuel, s1) => (OutOfFuel, s1)
    end.
Proof.
  unfold generateVideo_body, after_banner, at_loop_start.
  unfold bind at 1. unfold console_error at 1. unfold emit at 1.
  unfold bind at 1. unfold console_error at 1. unfold emit at 1.
  cbn [clock fs polls trace]. unfold bind at 1.
  destruct (submit params modelId prompt (Config.mk aspectRatio) env _)
    as [[operation|e|] s1]; try reflexivity.
  unfold bind at 1. unfold console_error at 1. unfold emit at 1.
  unfold bind at 1. cbn [Date_now clock fs polls trace]. unfold bind at 1.
  destruct (poll fuel (clock s1) operation env _) as [[[response|operation']|e|] s4];
    reflexivity.
Qed.

(** Property X11.  An operation that is already done when the submission
    resolves goes to the Done handling at once: the call sets no timer and
    issues no poll, whatever the fuel, and its trace up to the Done handling
    is the two log lines, the text-to-video request and one more log
    line. *)
Theorem generateVideo_done_at_submission fuel params env s latency operation :
  let prompt := VideoParams.prompt params in
  let aspectRatio := JS.or_default (VideoParams.aspectRatio params) "9:16" in
  let modelId := JS.or_default (VideoParams.model params) "veo-3.0-generate-001" in
  let request := VideoRequest.mk modelId prompt None (Config.mk aspectRatio) in
  match VideoParams.imagePath params with
  | Some p => fs s !! p = None
  | None => True
  end ->
  generateVideos_reply env request = (latency, inr operation) ->
  Operation.done operation = true ->
  generateVideo fuel params env s
  = try_catch (finish_video modelId aspectRatio operation)
      (fun error =>
         console_error_obj "[Veo] Error:" error ;;
         ret (Some (video_error_response error)))
      env
      (mkState (clock s + Z.of_N latency) (fs s) (polls s)
         ((clock s + Z.of_N latency,
           ConsoleError "[Veo] Operation started, polling for completion...")
          :: (clock s, GenerateVideos request)
          :: (clock s, ConsoleError ("[Veo] Prompt: " +:+ prompt))
          :: (clock s, ConsoleError ("[Veo] Starting video generation: model=" +:+ modelId
                                     +:+ ", aspect=" +:+ aspectRatio))
          :: trace s)).
Proof.
  cbn zeta. intros Hseed Hreply Hdone.
  unfold generateVideo. cbn zeta. unfold try_catch.
  rewrite generateVideo_body_phases.
  rewrite submit_unseeded
    by (destruct (VideoParams.imagePath params); [exact Hseed|exact I]).
  unfold generateVideos, after_banner. run_handler. rewrite Hreply. run_handler.
  rewrite poll_done by exact Hdone. unfold at_loop_start. cbn [clock fs polls trace].
  match goal with
  | |- context [finish_video ?m ?a ?o env ?st] =>
      destruct (finish_video m a o env st) as [[r|e|] s4]
  end; reflexivity.
Qed.

Lemma generateVideo_done_at_submission_witness :
  polls (snd (generateVideo 0 Demo.params0
                (Instant.env_with Responses.videos_only Instant.ok_response) Demo.state0))
  = 0%nat.
Proof.
  rewrite (generateVideo_done_at_submission 0 Demo.params0
             (Instant.env_with Responses.videos_only Instant.ok_response) Demo.state0
             90%N (Demo.finished "operations/1" Responses.videos_only) I eq_refl eq_refl).
  vm_compute. reflexivity.
Defined.

(** Property X12.  A seed image that exists but cannot be read (a
    directory, a file without permission) is an error, unlike a missing
    one: the call returns the error response with the message of what
    [readFileSync] threw, and nothing is submitted to the remote API. *)
Theorem generateVideo_unreadable_seed fuel params env s p e :
  let prompt := VideoParams.prompt params in
  let aspectRatio := JS.or_default (VideoParams.aspectRatio params) "9:16" in
  let modelId := JS.or_default (VideoParams.model params) "veo-3.0-generate-001" in
  VideoParams.imagePath params = Some p ->
  p <> "" ->
  fs s !! p = Some (Unreadable e) ->
  generateVideo fuel params env s
  = (Val (Some (text_response ("Error generating video: " +:+ message e))),
     mkState (clock s) (fs s) (polls s)
       ((clock s, ConsoleErrorObj "[Veo] Error:" e)
        :: (clock s, ConsoleError ("[Veo] Prompt: " +:+ prompt))
        :: (clock s, ConsoleError ("[Veo] Starting video generation: model=" +:+ modelId
                                   +:+ ", aspect=" +:+ aspectRatio))
        :: trace s)).
Proof.
  cbn zeta. intros Hpath Hne Hnode.
  unfold generateVideo. cbn zeta. unfold try_catch.
  rewrite generateVideo_body_phases.
  unfold submit, after_banner. rewrite Hpath. cbn [JS.truthy JS.interp].
  unfold JS.truthy_string.
  destruct (String.eqb_spec p "") as [->|_]; [contradiction|]. cbn [negb].
  run_handler. rewrite Hnode. run_handler. rewrite Hnode. run_handler. reflexivity.
Qed.

Lemma generateVideo_unreadable_seed_witness :
  fst (generateVideo poll_fuel (Seeds.params_with "/tmp/seed.png") Faults.submission
         Faults.locked_seed)
  = Val (Some (text_response ("Error generating video: " +:+ message Faults.denied))).
Proof.
  rewrite (generateVideo_unreadable_seed poll_fuel (Seeds.params_with "/tmp/seed.png")
             Faults.submission Faults.locked_seed "/tmp/seed.png" Faults.denied
             eq_refl ltac:(discriminate) eq_refl).
  reflexivity.
Defined.

(** ** Remote calls per call of a tool *)

Definition is_submit (e : Event) : bool :=
  match e with
  | GenerateVideos _ => true
  | _ => false
  end.

Definition is_fetch (e : Event) : bool :=
  match e with
  | Fetch _ => true
  | _ => false
  end.

Definition is_generate (e : Event) : bool :=
  match e with
  | GenerateContent _ _ _ => true
  | _ => false
  end.

(** The number of events of a kind in a trace. *)
Definition count_events (kind : Event -> bool) (evs : list (Z * Event)) : nat :=
  List.length (List.filter (fun te => kind (snd te)) evs).












Ltac image_counted :=
  (split; [reflexivity|]);
  cbn [count_events poll_calls sleep_calls List.filter List.length snd
       is_submit is_fetch is_generate is_poll is_sleep];
  repeat split; reflexivity.

Ltac image_leaf :=
  first [ eexists [_]; image_counted
        | eexists [_; _]; image_counted
        | eexists [_; _; _]; image_counted
        | eexists [_; _; _; _]; image_counted ].

(** Property X14.  In every world one [generateImage] call issues exactly
    one [generateContent] request and no other remote call: no video
    submission, no poll, no timer and no download. *)
Theorem generateImage_remote_calls params env s :
  exists evs,
    trace (snd (generateImage params env s)) = evs ++ trace s
    /\ count_events is_generate evs = 1%nat
    /\ count_events is_submit evs = 0%nat
    /\ poll_calls evs = 0%nat
    /\ sleep_calls evs = 0%nat
    /\ count_events is_fetch evs = 0%nat.
Proof.
  unfold generateImage, generateImage_body. run_handler.
  destruct (generateContent_reply env _) as [latency [e|result]]; run_handler;
    [image_leaf|].
  unfold response_parts.
  destruct (GenerateContentResult.candidates result) as [[|candidate ?]|]; run_handler;
    try image_leaf.
  destruct (Candidate.content candidate) as [c|]; run_handler; try image_leaf.
  destruct (Content.parts c) as [parts|]; run_handler; try image_leaf.
  destruct (scan_parts parts None None) as [[imageResult|] textResult]; run_handler.
  - destruct (InlineData.data imageResult) as [imageData|]; run_handler; [|image_leaf].
    match goal with
    | |- context [writeFileSync_error env ?f ?b] =>
        destruct (writeFileSync_error env f b) as [e|]
    end; run_handler; image_leaf.
  - destruct (JS.truthy textResult); run_handler; image_leaf.
Qed.

(** ** Parameters left out or left empty *)

(** Property X15.  An optional parameter given as the empty string counts
    as left out, and a parameter left out counts as its default: for
    [generateVideo], [aspectRatio] ["9:16"] and [model]
    ["veo-3.0-generate-001"], and an empty [imagePath] is no seed image;
    for [generateImage], [outputFormat] ["png"], and an empty prompt is
    replaced by ["Default image prompt"]. *)
Theorem empty_parameters_are_defaults :
  (forall fuel prompt aspectRatio model imagePath env s,
     (aspectRatio = None \/ aspectRatio = Some "" \/ aspectRatio = Some "9:16") ->
     (model = None \/ model = Some "" \/ model = Some "veo-3.0-generate-001") ->
     (imagePath = None \/ imagePath = Some "") ->
     generateVideo fuel (VideoParams.mk prompt aspectRatio model imagePath) env s
     = generateVideo fuel
         (VideoParams.mk prompt (Some "9:16") (Some "veo-3.0-generate-001") None) env s)
  /\ (forall prompt aspectRatio outputFormat env s,
        (prompt = "" \/ prompt = "Default image prompt") ->
        (outputFormat = None \/ outputFormat = Some "" \/ outputFormat = Some "png") ->
        generateImage (ImageParams.mk prompt aspectRatio outputFormat) env s
        = generateImage (ImageParams.mk "Default image prompt" None (Some "png")) env s).
Proof.
  split.
  - intros fuel prompt aspectRatio model imagePath env s Ha Hm Hi.
    destruct Ha as [->|[->| ->]], Hm as [->|[->| ->]], Hi as [->| ->]; reflexivity.
  - intros prompt aspectRatio outputFormat env s Hp Hf.
    destruct Hp as [->| ->], Hf as [->|[->| ->]]; reflexivity.
Qed.

Lemma empty_parameters_are_defaults_witness :
  generateVideo poll_fuel (VideoParams.mk "a cat" (Some "") None (Some ""))
    (Demo.env_never 0) Demo.state0
  = generateVideo poll_fuel
      (VideoParams.mk "a cat" (Some "9:16") (Some "veo-3.0-generate-001") None)
      (Demo.env_never 0) Demo.state0.
Proof.
  apply (proj1 empty_parameters_are_defaults poll_fuel "a cat" (Some "") None (Some "")
           (Demo.env_never 0) Demo.state0); auto.
Defined.

(** ** Server start *)

(** [startServer]: the transport is created, [server.connect] awaited, and
    the banner logged; a failure is caught and logged.  [connect] is what
    the awaited call does: its latency, and whether it resolves or rejects. *)
Definition startServer (connect : N * (JsError + unit)) : M unit :=
  try_catch
    (elapse (fst connect) ;;
     settle (snd connect) ;;
     console_error "Gemini Media Server running (Imagen + Veo 3)")
    (fun error => console_error_obj "Server startup error:" error).

(** Property X16.  [startServer] never rejects: when [server.connect]
    resolves it logs the banner, when it rejects it logs the error instead;
    either way it returns normally, having logged exactly that one line and
    touched no file. *)
Theorem startServer_never_rejects connect env s :
  fst (startServer connect env s) = Val tt
  /\ fs (snd (startServer connect env s)) = fs s
  /\ exists t,
       trace (snd (startServer connect env s))
       = (t, match snd connect with
             | inr _ => ConsoleError "Gemini Media Server running (Imagen + Veo 3)"
             | inl e => ConsoleErrorObj "Server startup error:" e
             end) :: trace s.
Proof.
  unfold startServer. destruct connect as [latency [e|[]]]; run_handler;
    repeat split; eexists; reflexivity.
Qed.

(** ** The extension of a plain file name *)

(** A character that is neither the separator nor the dot. *)
Definition plain_char (c : ascii) : bool := negb (Ascii.eqb c "/") && negb (Ascii.eqb c ".").

(** A name made of such characters only. *)
Definition plain_name (name : string) : bool :=
  forallb plain_char (list_ascii_of_string name).

Lemma list_ascii_of_string_app a b :
  list_ascii_of_string (a +:+ b) = list_ascii_of_string a ++ list_ascii_of_string b.
Proof. induction a as [|c a IH]; [reflexivity|]. simpl. rewrite IH. reflexivity. Qed.

Lemma substring_whole b : String.substring 0 (String.length b) b = b.
Proof. induction b as [|c b IH]; simpl; [reflexivity|]. rewrite IH. reflexivity. Qed.

Lemma substring_suffix a b :
  String.substring (String.length a) (String.length b) (a +:+ b) = b.
Proof.
  induction a as [|c a IH]; [apply substring_whole|]. simpl. exact IH.
Qed.

Lemma length_list_ascii s : List.length (list_ascii_of_string s) = String.length s.
Proof. induction s as [|c s IH]; simpl; [reflexivity|]. rewrite IH. reflexivity. Qed.

(** One round of the scan at a plain character, and at the dot. *)
Lemma scan_step_plain i c st :
  plain_char c = true ->
  path.scan_step i c st
  = inr (let st1 :=
           if path.end_ st =? -1
           then path.mkScan (path.startDot st) (path.startPart st) (i + 1) false
                  (path.preDotState st)
           else st in
         if negb (path.startDot st1 =? -1)
         then path.mkScan (path.startDot st1) (path.startPart st1) (path.end_ st1)
                (path.matchedSlash st1) (-1)
         else st1).
Proof.
  intros Hc. unfold plain_char in Hc. apply andb_prop in Hc. destruct Hc as [Hslash Hdot].
  apply negb_true_iff in Hslash, Hdot.
  unfold path.scan_step. rewrite Hslash, Hdot. reflexivity.
Qed.

Lemma scan_step_dot i st :
  path.scan_step i "." st
  = inr (let st1 :=
           if path.end_ st =? -1
           then path.mkScan (path.startDot st) (path.startPart st) (i + 1) false
                  (path.preDotState st)
           else st in
         if path.startDot st1 =? -1
         then path.mkScan i (path.startPart st1) (path.end_ st1) (path.matchedSlash st1)
                (path.preDotState st1)
         else if negb (path.preDotState st1 =? 1)
              then path.mkScan (path.startDot st1) (path.startPart st1) (path.end_ st1)
                     (path.matchedSlash st1) 1
              else st1).
Proof. reflexivity. Qed.

(** Plain characters met before any dot leave the scan as it is, once its
    end is marked. *)
Lemma scan_loop_plain_suffix l : forall rest e sp ms,
  forallb plain_char l = true ->
  e <> -1 ->
  path.scan_loop (l ++ rest) (path.mkScan (-1) sp e ms 0)
  = path.scan_loop rest (path.mkScan (-1) sp e ms 0).
Proof.
  induction l as [|c l IH]; intros rest e sp ms Hplain He; [reflexivity|].
  cbn [forallb] in Hplain. apply andb_prop in Hplain. destruct Hplain as [Hc Hl].
  cbn [app path.scan_loop]. rewrite (scan_step_plain _ c _ Hc).
  cbn [path.end_ path.startDot path.startPart path.matchedSlash path.preDotState].
  rewrite (proj2 (Z.eqb_neq e (-1)) He).
  cbn [path.startDot]. rewrite Z.eqb_refl. cbn [negb]. apply IH; assumption.
Qed.

(** Plain characters met after the dot record that the dot has a name
    before it. *)
Lemma scan_loop_plain_base l : forall rest sd sp e ms pd,
  forallb plain_char l = true ->
  l <> [] ->
  e <> -1 -> sd <> -1 ->
  path.scan_loop (l ++ rest) (path.mkScan sd sp e ms pd)
  = path.scan_loop rest (path.mkScan sd sp e ms (-1)).
Proof.
  induction l as [|c l IH]; intros rest sd sp e ms pd Hplain Hne He Hsd; [contradiction|].
  cbn [forallb] in Hplain. apply andb_prop in Hplain. destruct Hplain as [Hc Hl].
  cbn [app path.scan_loop]. rewrite (scan_step_plain _ c _ Hc).
  cbn [path.end_ path.startDot path.startPart path.matchedSlash path.preDotState].
  rewrite (proj2 (Z.eqb_neq e (-1)) He).
  cbn [path.startDot path.startPart path.end_ path.matchedSlash].
  rewrite (proj2 (Z.eqb_neq sd (-1)) Hsd). cbn [negb].
  destruct l as [|c' l']; [reflexivity|].
  apply IH; [exact Hl|discriminate|exact He|exact Hsd].
Qed.

(** The scan up to and including the last dot of the name. *)
Lemma scan_loop_to_dot extR : forall rest,
  forallb plain_char extR = true ->
  path.scan_loop (extR ++ "."%char :: rest) path.scan0
  = path.scan_loop rest
      (path.mkScan (Z.of_nat (List.length rest)) 0
         (Z.of_nat (List.length (extR ++ "."%char :: rest))) false 0).
Proof.
  intros rest Hplain. destruct extR as [|c l].
  - cbn [app path.scan_loop]. rewrite scan_step_dot.
    cbn [path.scan0 path.end_ path.startDot path.startPart path.matchedSlash
         path.preDotState].
    rewrite ?Z.eqb_refl.
    cbn [path.end_ path.startDot path.startPart path.matchedSlash path.preDotState].
    rewrite ?Z.eqb_refl. do 2 f_equal. cbn [List.length]. lia.
  - cbn [forallb] in Hplain. apply andb_prop in Hplain. destruct Hplain as [Hc Hl].
    cbn [app path.scan_loop]. rewrite (scan_step_plain _ c _ Hc).
    cbn [path.scan0 path.end_ path.startDot path.startPart path.matchedSlash
         path.preDotState].
    rewrite ?Z.eqb_refl.
    cbn [path.end_ path.startDot path.startPart path.matchedSlash path.preDotState].
    rewrite ?Z.eqb_refl. cbn [negb].
    rewrite scan_loop_plain_suffix by (try exact Hl; lia).
    cbn [path.scan_loop]. rewrite scan_step_dot.
    cbn [path.end_ path.startDot path.startPart path.matchedSlash path.preDotState].
    rewrite (proj2 (Z.eqb_neq (Z.of_nat (List.length (l ++ "."%char :: rest)) + 1) (-1)))
      by lia.
    cbn [path.end_ path.startDot path.startPart path.matchedSlash path.preDotState].
    rewrite ?Z.eqb_refl. do 2 f_equal. cbn [List.length]. lia.
Qed.

(** The scan of a name [base.ext] behind a directory part that is empty or
    ends with a separator; the characters are those of indices from the
    last down to the first. *)
Lemma scan_loop_named dirR baseR extR :
  (dirR = [] \/ exists d, dirR = "/"%char :: d) ->
  forallb plain_char baseR = true -> baseR <> [] ->
  forallb plain_char extR = true ->
  exists sp,
    path.scan_loop (extR ++ "."%char :: baseR ++ dirR) path.scan0
    = path.mkScan (Z.of_nat (List.length (baseR ++ dirR))) sp
        (Z.of_nat (List.length (extR ++ "."%char :: baseR ++ dirR))) false (-1).
Proof.
  intros Hdir Hbase Hbase_ne Hext.
  rewrite scan_loop_to_dot by exact Hext.
  rewrite scan_loop_plain_base; [|exact Hbase|exact Hbase_ne|lia|lia].
  destruct Hdir as [->|[d ->]].
  - eexists. reflexivity.
  - cbn [path.scan_loop]. unfold path.scan_step.
    change (Ascii.eqb "/" "/") with true. cbn [path.matchedSlash negb].
    eexists. reflexivity.
Qed.

Lemma forallb_rev (l : list ascii) :
  forallb plain_char l = true -> forallb plain_char (rev l) = true.
Proof.
  rewrite !forallb_forall. intros Hall c Hc. apply Hall. apply in_rev. exact Hc.
Qed.

Lemma string_append_assoc a b c : (a +:+ b) +:+ c = a +:+ b +:+ c.
Proof.
  induction a as [|x a IH]; [reflexivity|].
  change (String x ((a +:+ b) +:+ c) = String x (a +:+ b +:+ c)). f_equal. exact IH.
Qed.

Lemma string_length_append a b :
  String.length (a +:+ b) = (String.length a + String.length b)%nat.
Proof.
  induction a as [|x a IH]; [reflexivity|].
  change (S (String.length (a +:+ b)) = S (String.length a + String.length b)).
  f_equal. exact IH.
Qed.

(** Property X17.  For a path whose last component is [base.ext], with a
    non-empty [base] and an [ext] free of dots and separators, behind a
    directory part that is empty or ends with a separator, [path.extname]
    is the dot followed by [ext]; so the seed image is sent as [image/jpeg]
    exactly when [ext], letter case aside, is [jpg] or [jpeg], and as
    [image/png] otherwise. *)
Theorem seed_mimeType_by_suffix dir base ext :
  (dir = "" \/ exists d, dir = d +:+ "/") ->
  plain_name base = true ->
  base <> "" ->
  plain_name ext = true ->
  path.extname (dir +:+ base +:+ "." +:+ ext) = "." +:+ ext
  /\ seed_mimeType (dir +:+ base +:+ "." +:+ ext)
     = if String.eqb (JS.toLowerCase ext) "jpg" || String.eqb (JS.toLowerCase ext) "jpeg"
       then "image/jpeg" else "image/png".
Proof.
  intros Hdir Hbase Hbase_ne Hext.
  assert (Hextname : path.extname (dir +:+ base +:+ "." +:+ ext) = "." +:+ ext).
  { unfold path.extname.
    assert (Hchars : rev (list_ascii_of_string (dir +:+ base +:+ "." +:+ ext))
                     = rev (list_ascii_of_string ext)
                       ++ "."%char :: rev (list_ascii_of_string base)
                       ++ rev (list_ascii_of_string dir)).
    { rewrite !list_ascii_of_string_app. cbn [list_ascii_of_string app].
      rewrite !rev_app_distr. cbn [rev]. rewrite <- !app_assoc. reflexivity. }
    destruct (scan_loop_named (rev (list_ascii_of_string dir))
                (rev (list_ascii_of_string base)) (rev (list_ascii_of_string ext)))
      as [sp Hscan].
    - destruct Hdir as [->|[d ->]]; [left; reflexivity|right].
      rewrite list_ascii_of_string_app. cbn [list_ascii_of_string].
      rewrite rev_app_distr. cbn [rev app]. eexists. reflexivity.
    - apply forallb_rev. exact Hbase.
    - intros Hnil. apply Hbase_ne. destruct base; [reflexivity|].
      apply (f_equal (@List.length ascii)) in Hnil.
      rewrite length_rev in Hnil. discriminate Hnil.
    - apply forallb_rev. exact Hext.
    - rewrite Hchars, Hscan.
      cbn [path.startDot path.end_ path.preDotState path.startPart].
      rewrite !length_app. cbn [List.length]. rewrite !length_app, !length_rev,
        !length_list_ascii.
      rewrite (proj2 (Z.eqb_neq _ (-1))) by lia.
      rewrite (proj2 (Z.eqb_neq _ (-1))) by lia.
      change (-1 =? 0) with false. change (-1 =? 1) with false. cbn [orb andb].
      replace (Z.to_nat (Z.of_nat (String.length base + String.length dir)))
        with (String.length (dir +:+ base))
        by (rewrite string_length_append; lia).
      replace (Z.to_nat _) with (String.length ("." +:+ ext))
        by (change (String.length ("." +:+ ext)) with (S (String.length ext)); lia).
      rewrite <- string_append_assoc. apply substring_suffix. }
  split; [exact Hextname|].
  unfold seed_mimeType. rewrite Hextname. reflexivity.
Qed.

Lemma seed_mimeType_by_suffix_witness :
  seed_mimeType ("/tmp/" +:+ "seed" +:+ "." +:+ "JPG") = "image/jpeg".
Proof.
  apply (seed_mimeType_by_suffix "/tmp/" "seed" "JPG").
  - right. exists "/tmp". reflexivity.
  - reflexivity.
  - discriminate.
  - reflexivity.
Defined.

(** ** The names of the saved files *)

Lemma string_append_inv_tail a b suffix : a +:+ suffix = b +:+ suffix -> a = b.
Proof.
  intros Heq. apply (f_equal list_ascii_of_string) in Heq.
  rewrite !list_ascii_of_string_app in Heq. apply app_inv_tail in Heq.
  rewrite <- (string_of_list_ascii_of_string a), <- (string_of_list_ascii_of_string b), Heq.
  reflexivity.
Qed.

(** Property X18.  The names of the saved files are told apart by the
    millisecond of the save: two videos, or two images of the same output
    format, get the same name only if saved in the same millisecond; and a
    video never gets the name of an image. *)
Theorem saved_names_distinct :
  (forall t1 t2, video_filename t1 = video_filename t2 -> t1 = t2)
  /\ (forall t1 t2 outputFormat,
        image_filename t1 outputFormat = image_filename t2 outputFormat -> t1 = t2)
  /\ (forall t1 t2 outputFormat, video_filename t1 <> image_filename t2 outputFormat).
Proof.
  split; [|split].
  - intros t1 t2 Heq. unfold video_filename, JS.number in Heq.
    apply (String.app_inj "gemini-video-") in Heq.
    apply string_append_inv_tail in Heq. apply pretty_Z_inj in Heq. exact Heq.
  - intros t1 t2 outputFormat Heq. unfold image_filename, JS.number in Heq.
    apply (String.app_inj "gemini-image-") in Heq.
    rewrite <- !string_append_assoc in Heq.
    apply string_append_inv_tail in Heq. apply string_append_inv_tail in Heq.
    apply pretty_Z_inj in Heq. exact Heq.
  - intros t1 t2 outputFormat Heq. unfold video_filename, image_filename in Heq.
    cbn [String.append] in Heq. discriminate Heq.
Qed.
